(** * manimation: the procedural geometry engine of [src/main.cpp]

    A shallow embedding of the [MathAnimation] class: the quality policy
    ([getQualityMultiplier]), the mass controls ([increaseMass],
    [decreaseMass]), the constructor, the sixteen vertex generators and the
    mode dispatch of [render].

    Numbers.  The C++ code computes in [float], and in [double] where
    [M_PI] or [sqrt(int)] promote an expression; the embedding uses one
    number type for both.  The arithmetic is kept abstract behind two
    interfaces, [FloatArith] (literals, conversions, the four operations,
    comparison) and [FloatMath] (the libm functions), so that everything
    structural is proved for every float semantics.  Two instances are
    given:
    - [F32.arith]: IEEE-754 binary32 with round-to-nearest-even, from the
      standard library's [SpecFloat]; it is executable and exact for the
      mass controls, which use only [+], [-] and [<] on [float];
    - [RealModel]: the real numbers, the idealised reading of the formulas
      (no rounding, no NaN, no infinity); the numerical facts about the
      generators are proved there.
    [int] values are modelled as [Z]; every loop bound of the program is
    below 2^31, so no wrap-around is involved. *)

From Stdlib Require Import ZArith List Bool QArith Lia.
From Stdlib Require Import Floats.SpecFloat.
From Stdlib Require Import Reals Lra.
Import ListNotations.

Local Open Scope Z_scope.

(** ** Float interfaces *)

Class FloatArith (F : Type) : Type := {
  flit : Q -> F;            (* a decimal literal: [0.2f] is [flit 0.2] *)
  of_int : Z -> F;          (* conversion [int -> float], as in [(float)i] *)
  fneg : F -> F;
  fadd : F -> F -> F;
  fsub : F -> F -> F;
  fmul : F -> F -> F;
  fdiv : F -> F -> F;
  fltb : F -> F -> bool     (* [x < y] *)
}.

Class FloatMath (F : Type) {FA : FloatArith F} : Type := {
  M_PI : F;
  fsin : F -> F;
  fcos : F -> F;
  facos : F -> F;
  fsqrt : F -> F;
  fexp : F -> F;
  ffabs : F -> F;
  fpow : F -> F -> F;       (* [powf] *)
  ffmod : F -> F -> F;      (* [fmodf] *)
  ffmin : F -> F -> F;      (* [fminf] *)
  to_int : F -> Z           (* conversion [float -> int]: truncation *)
}.

Declare Scope flt_scope.
Delimit Scope flt_scope with flt.
Notation "'$' q" := (flit q%Q) (at level 1, q at level 0, format "'$' q") : flt_scope.
Notation "x + y" := (fadd x y) : flt_scope.
Notation "x - y" := (fsub x y) : flt_scope.
Notation "x * y" := (fmul x y) : flt_scope.
Notation "x / y" := (fdiv x y) : flt_scope.
Notation "- x" := (fneg x) : flt_scope.
Notation "x <? y" := (fltb x y) : flt_scope.

(** ** The application object *)

(** The data members of [class MathAnimation].  The handles of the
    graphics back end ([window], [shaderProgram], [VAO], [VBO]), the derived
    camera vectors, the key table and the background palette belong to the
    rendering glue and are left out. *)
Record MathAnimation (F : Type) : Type := mkMathAnimation {
  vertices : list F;
  time : F;
  animationMode : Z;
  backgroundMode : Z;
  centralMass : F;
  maxDeformation : F;
  targetFPS : Z;
  frameTime : F;
  lastFrameTime : F;
  qualityLevel : Z;
  windowWidth : Z;
  windowHeight : Z;
  cameraPos : F * F * F;
  yaw : F;
  pitch : F;
  mouseSensitivity : F;
  cameraSpeed : F;
  firstMouse : bool;
  lastX : F;
  lastY : F;
  deltaTime : F;
  lastFrame : F
}.

Arguments mkMathAnimation {F}.
Arguments vertices {F}.
Arguments time {F}.
Arguments animationMode {F}.
Arguments backgroundMode {F}.
Arguments centralMass {F}.
Arguments maxDeformation {F}.
Arguments targetFPS {F}.
Arguments frameTime {F}.
Arguments lastFrameTime {F}.
Arguments qualityLevel {F}.
Arguments windowWidth {F}.
Arguments windowHeight {F}.
Arguments cameraPos {F}.
Arguments yaw {F}.
Arguments pitch {F}.
Arguments mouseSensitivity {F}.
Arguments cameraSpeed {F}.
Arguments firstMouse {F}.
Arguments lastX {F}.
Arguments lastY {F}.
Arguments deltaTime {F}.
Arguments lastFrame {F}.

Section Object.
Context {F : Type} {FA : FloatArith F}.
Local Open Scope flt_scope.

Definition set_vertices (this : MathAnimation F) (v : list F) : MathAnimation F :=
  mkMathAnimation v (time this) (animationMode this) (backgroundMode this)
    (centralMass this) (maxDeformation this) (targetFPS this) (frameTime this)
    (lastFrameTime this) (qualityLevel this) (windowWidth this) (windowHeight this)
    (cameraPos this) (yaw this) (pitch this) (mouseSensitivity this)
    (cameraSpeed this) (firstMouse this) (lastX this) (lastY this)
    (deltaTime this) (lastFrame this).

Definition set_animationMode (this : MathAnimation F) (m : Z) : MathAnimation F :=
  mkMathAnimation (vertices this) (time this) m (backgroundMode this)
    (centralMass this) (maxDeformation this) (targetFPS this) (frameTime this)
    (lastFrameTime this) (qualityLevel this) (windowWidth this) (windowHeight this)
    (cameraPos this) (yaw this) (pitch this) (mouseSensitivity this)
    (cameraSpeed this) (firstMouse this) (lastX this) (lastY this)
    (deltaTime this) (lastFrame this).

Definition set_centralMass (this : MathAnimation F) (m : F) : MathAnimation F :=
  mkMathAnimation (vertices this) (time this) (animationMode this) (backgroundMode this)
    m (maxDeformation this) (targetFPS this) (frameTime this)
    (lastFrameTime this) (qualityLevel this) (windowWidth this) (windowHeight this)
    (cameraPos this) (yaw this) (pitch this) (mouseSensitivity this)
    (cameraSpeed this) (firstMouse this) (lastX this) (lastY this)
    (deltaTime this) (lastFrame this).

Definition set_qualityLevel (this : MathAnimation F) (q : Z) : MathAnimation F :=
  mkMathAnimation (vertices this) (time this) (animationMode this) (backgroundMode this)
    (centralMass this) (maxDeformation this) (targetFPS this) (frameTime this)
    (lastFrameTime this) q (windowWidth this) (windowHeight this)
    (cameraPos this) (yaw this) (pitch this) (mouseSensitivity this)
    (cameraSpeed this) (firstMouse this) (lastX this) (lastY this)
    (deltaTime this) (lastFrame this).

Definition set_cameraPos (this : MathAnimation F) (p : F * F * F) : MathAnimation F :=
  mkMathAnimation (vertices this) (time this) (animationMode this) (backgroundMode this)
    (centralMass this) (maxDeformation this) (targetFPS this) (frameTime this)
    (lastFrameTime this) (qualityLevel this) (windowWidth this) (windowHeight this)
    p (yaw this) (pitch this) (mouseSensitivity this)
    (cameraSpeed this) (firstMouse this) (lastX this) (lastY this)
    (deltaTime this) (lastFrame this).

(** [MathAnimation::MathAnimation()].  The object is built in raw storage;
    a member that the constructor's initialiser list and body do not
    mention keeps whatever the storage held ([centralMass],
    [maxDeformation], [frameTime] and [lastFrameTime] are such members),
    except [vertices], whose own default constructor makes it empty. *)
Definition MathAnimation_ctor (storage : MathAnimation F) : MathAnimation F :=
  {| vertices := [];
     time := $0.0;
     animationMode := 0;
     backgroundMode := 0;
     centralMass := centralMass storage;
     maxDeformation := maxDeformation storage;
     targetFPS := 60;
     frameTime := frameTime storage;
     lastFrameTime := lastFrameTime storage;
     qualityLevel := 2;
     windowWidth := 1200;
     windowHeight := 900;
     cameraPos := ($0.0, $0.0, $5.0);
     yaw := $(-90.0);
     pitch := $0.0;
     mouseSensitivity := $0.1;
     cameraSpeed := $2.5;
     firstMouse := true;
     lastX := $600.0;
     lastY := $450.0;
     deltaTime := $0.0;
     lastFrame := $0.0 |}.

(** [increaseMass] and [decreaseMass]; the line they print on [std::cout]
    is not part of the state and is not modelled. *)
Definition increaseMass (this : MathAnimation F) : MathAnimation F :=
  let centralMass := centralMass this + $0.2 in
  let centralMass := if $5.0 <? centralMass then $5.0 else centralMass in
  set_centralMass this centralMass.

Definition decreaseMass (this : MathAnimation F) : MathAnimation F :=
  let centralMass := centralMass this - $0.2 in
  let centralMass := if centralMass <? $0.1 then $0.1 else centralMass in
  set_centralMass this centralMass.

Definition setQuality (this : MathAnimation F) (quality : Z) : MathAnimation F :=
  set_qualityLevel this quality.

End Object.

(** [getQualityMultiplier] reads the member [qualityLevel]; it is a function
    of that member alone. *)
Definition getQualityMultiplier (qualityLevel : Z) : Z :=
  match qualityLevel with
  | 0 => 1
  | 1 => 2
  | 2 => 4
  | 3 => 8
  | _ => 4
  end.

(** ** IEEE-754 binary32 *)

Module F32.

Definition prec : Z := 24.
Definition emax : Z := 128.

Definition f32 : Type := spec_float.

Definition of_Z (z : Z) : f32 := binary_normalize prec emax z 0 false.

(** A decimal literal [n/d] denotes the float nearest to it; for the
    literals of the mass controls [n] and [d] are themselves floats, and
    the correctly rounded quotient is that nearest float. *)
Definition lit (q : Q) : f32 :=
  SFdiv prec emax (of_Z (Qnum q)) (of_Z (Zpos (Qden q))).

#[global] Instance arith : FloatArith f32 := {|
  flit := lit;
  of_int := of_Z;
  fneg := SFopp;
  fadd := SFadd prec emax;
  fsub := SFsub prec emax;
  fmul := SFmul prec emax;
  fdiv := SFdiv prec emax;
  fltb := SFltb
|}.

(** An object whose storage was all zero bytes before construction. *)
Definition zero_storage : MathAnimation f32 :=
  mkMathAnimation [] (S754_zero false) 0 0 (S754_zero false) (S754_zero false)
    0 (S754_zero false) (S754_zero false) 0 0 0
    (S754_zero false, S754_zero false, S754_zero false)
    (S754_zero false) (S754_zero false) (S754_zero false) (S754_zero false)
    false (S754_zero false) (S754_zero false) (S754_zero false) (S754_zero false).

Definition with_mass (m : f32) : MathAnimation f32 :=
  set_centralMass zero_storage m.

End F32.

(** ** Loops and vectors *)

(** [std::vector<float>]: [clear] and [push_back]. *)
Definition clear {A : Type} (v : list A) : list A := [].
Definition push_back {A : Type} (v : list A) (x : A) : list A := v ++ [x].

(** [for (int i = 0; i < n; ++i)] visits [range n]; with [i += step] it
    visits [range_by n step]. *)
Definition range (n : Z) : list Z := map Z.of_nat (seq 0 (Z.to_nat n)).
Definition range_by (n step : Z) : list Z :=
  map (fun k => step * k) (range ((n + step - 1) / step)).

(** A loop threads the variables its body assigns through the visited
    values. *)
Definition for_each {A S : Type} (l : list A) (body : A -> S -> S) (s : S) : S :=
  fold_left (fun s a => body a s) l s.

(** A loop body that only appends to the vector it is given. *)
Definition appends {A B : Type} (body : A -> list B -> list B) : Prop :=
  forall a v, body a v = v ++ body a [].

(** The cells [(i, j, k)] that three nested loops over [range n] visit, in
    the order they visit them. *)
Definition grid_cells (n : Z) : list (Z * Z * Z) :=
  flat_map (fun i => flat_map (fun j => map (fun k => (i, j, k)) (range n)) (range n))
           (range n).

(** ** The generators *)

Section Generators.
Context {F : Type} {FA : FloatArith F} {FM : FloatMath F}.
Local Open Scope flt_scope.

Implicit Types (this : MathAnimation F) (vertices : list F) (t : F).

Definition sph_legendre (l m : Z) (x : F) : F :=
  fsin (of_int l * facos x + of_int m * $0.5).

Definition generateParametricSpiral this vertices t : list F :=
  let vertices := clear vertices in
  let numPoints := (1000 * getQualityMultiplier (qualityLevel this))%Z in
  for_each (range numPoints) (fun i vertices =>
    let param := of_int i / of_int numPoints * $10.0 * M_PI in
    let radius := $0.8 + $0.4 * fsin (param * $0.1 + t) in
    let x := radius * fcos (param + t) in
    let y := fsin (param * $0.3 + t * $0.5) * $0.5 in
    let z := radius * fsin (param + t) in
    let vertices := push_back vertices x in
    let vertices := push_back vertices y in
    let vertices := push_back vertices z in
    let r := $0.6 + $0.4 * fsin (param * $0.2 + t) in
    let g := $0.6 + $0.4 * fcos (param * $0.15 + t * $1.5) in
    let b := $0.6 + $0.4 * fsin (param * $0.3 + t * $0.8) in
    let vertices := push_back vertices r in
    let vertices := push_back vertices g in
    push_back vertices b) vertices.

Definition generateLissajous this vertices t : list F :=
  let vertices := clear vertices in
  let numPoints := (2000 * getQualityMultiplier (qualityLevel this))%Z in
  for_each (range numPoints) (fun i vertices =>
    let param := of_int i / of_int numPoints * $4.0 * M_PI in
    let x := $1.2 * fsin ($3.0 * param + t) in
    let y := $1.0 * fsin ($2.0 * param + t * $0.7) in
    let z := $0.8 * fsin ($5.0 * param + t * $1.3) in
    let vertices := push_back vertices x in
    let vertices := push_back vertices y in
    let vertices := push_back vertices z in
    let r := $0.7 + $0.3 * fsin (param + t) in
    let g := $0.7 + $0.3 * fsin (param + t + $2.0 * M_PI / $3.0) in
    let b := $0.7 + $0.3 * fsin (param + t + $4.0 * M_PI / $3.0) in
    let vertices := push_back vertices r in
    let vertices := push_back vertices g in
    push_back vertices b) vertices.

Definition generate3DHelix this vertices t : list F :=
  let vertices := clear vertices in
  let numPoints := (1500 * getQualityMultiplier (qualityLevel this))%Z in
  for_each (range numPoints) (fun i vertices =>
    let param := of_int i / of_int numPoints * $12.0 * M_PI in
    let amplitude := $1.0 + $0.3 * fsin (t * $2.0) in
    let x := amplitude * fcos (param + t) in
    let y := (param / ($6.0 * M_PI) - $1.0) * $1.5 in
    let z := amplitude * fsin (param + t) in
    let vertices := push_back vertices x in
    let vertices := push_back vertices y in
    let vertices := push_back vertices z in
    let intensity := of_int i / of_int numPoints in
    let vertices := push_back vertices ($0.8 * intensity + $0.2) in
    let vertices := push_back vertices ($0.8 * ($1.0 - intensity) + $0.2) in
    push_back vertices ($0.7 + $0.3 * fsin (t + param))) vertices.

Definition generateSineWaveSurface this vertices t : list F :=
  let vertices := clear vertices in
  let gridSize := to_int (of_int 80 * fsqrt (of_int (getQualityMultiplier (qualityLevel this)))) in
  let scale := $3.0 in
  for_each (range gridSize) (fun i vertices =>
    for_each (range gridSize) (fun j vertices =>
      let x := of_int i / of_int gridSize * scale - scale / of_int 2 in
      let z := of_int j / of_int gridSize * scale - scale / of_int 2 in
      let distance := fsqrt (x * x + z * z) in
      let y := $0.6 * fsin (distance * $2.5 - t * $3.0) * fexp (- distance * $0.4) in
      let vertices := push_back vertices x in
      let vertices := push_back vertices y in
      let vertices := push_back vertices z in
      let heightIntensity := (y + $0.6) * $0.8 + $0.2 in
      let r := $0.3 + $0.7 * heightIntensity in
      let g := $0.2 + $0.6 * fsin (distance * $0.5 + t) in
      let b := $0.8 + $0.2 * fcos (distance * $0.3 + t * $1.2) in
      let vertices := push_back vertices r in
      let vertices := push_back vertices g in
      push_back vertices b) vertices) vertices.

Definition generateTorus this vertices t : list F :=
  let vertices := clear vertices in
  let qualityMult := getQualityMultiplier (qualityLevel this) in
  let majorSegments := (60 * qualityMult)%Z in
  let minorSegments := (40 * qualityMult)%Z in
  let majorRadius := $1.2 in
  let minorRadius := $0.4 + $0.2 * fsin (t * $2.0) in
  for_each (range majorSegments) (fun i vertices =>
    for_each (range minorSegments) (fun j vertices =>
      let u := $2.0 * M_PI * of_int i / of_int majorSegments + t in
      let v := $2.0 * M_PI * of_int j / of_int minorSegments in
      let x := (majorRadius + minorRadius * fcos v) * fcos u in
      let y := minorRadius * fsin v in
      let z := (majorRadius + minorRadius * fcos v) * fsin u in
      let vertices := push_back vertices x in
      let vertices := push_back vertices y in
      let vertices := push_back vertices z in
      let r := $0.6 + $0.4 * fcos (u + t) in
      let g := $0.6 + $0.4 * fsin (v + t * $1.3) in
      let b := $0.6 + $0.4 * fsin (u + v + t * $0.7) in
      let vertices := push_back vertices r in
      let vertices := push_back vertices g in
      push_back vertices b) vertices) vertices.

Definition generateHypotrochoid this vertices t : list F :=
  let vertices := clear vertices in
  let numPoints := (2000 * getQualityMultiplier (qualityLevel this))%Z in
  let R := $1.0 + $0.3 * fsin (t * $0.5) in
  let r := $0.3 + $0.1 * fcos (t * $0.7) in
  let d := $0.5 + $0.2 * fsin (t * $1.3) in
  for_each (range numPoints) (fun i vertices =>
    let θ := of_int i / of_int numPoints * $2.0 * M_PI in
    let diff := R - r in
    let x := diff * fcos θ + d * fcos (diff / r * θ) in
    let y := diff * fsin θ - d * fsin (diff / r * θ) in
    let z := $0.0 in
    let vertices := push_back vertices x in
    let vertices := push_back vertices y in
    let vertices := push_back vertices z in
    let hue := ffmod (θ + t) ($2.0 * M_PI) / ($2.0 * M_PI) in
    let vertices := push_back vertices ($0.5 + $0.5 * fsin (of_int 2 * M_PI * hue)) in
    let vertices := push_back vertices ($0.5 + $0.5 * fsin (of_int 2 * M_PI * hue + $2.0)) in
    push_back vertices ($0.5 + $0.5 * fsin (of_int 2 * M_PI * hue + $4.0))) vertices.

(** The four time-varying parameters of the superformula. *)
Definition superformula_m t : F := $6.0 + $4.0 * fsin (t * $0.4).
Definition superformula_n1 t : F := $0.3 + $1.2 * ffabs (fsin (t * $0.6)).
Definition superformula_n2 t : F := $1.0 + $2.0 * ffabs (fcos (t * $0.5)).
Definition superformula_n3 t : F := $1.0 + $2.0 * ffabs (fsin (t * $0.8)).

Definition generateSuperformula this vertices t : list F :=
  let vertices := clear vertices in
  let numPoints := (1000 * getQualityMultiplier (qualityLevel this))%Z in
  let m := superformula_m t in
  let n1 := superformula_n1 t in
  let n2 := superformula_n2 t in
  let n3 := superformula_n3 t in
  let a := of_int 1 in
  let b := of_int 1 in
  for_each (range numPoints) (fun i vertices =>
    let φ := of_int i / of_int numPoints * $2.0 * M_PI in
    let cos_m := fcos (m * φ / $4.0) / a in
    let sin_m := fsin (m * φ / $4.0) / b in
    let r := fpow (fpow (ffabs cos_m) n2 + fpow (ffabs sin_m) n3) ($(-1.0) / n1) in
    let x := r * fcos φ in
    let y := r * fsin φ in
    let z := $0.0 in
    let vertices := push_back vertices x in
    let vertices := push_back vertices y in
    let vertices := push_back vertices z in
    let vertices := push_back vertices ($0.5 + $0.5 * r) in
    let vertices := push_back vertices ($0.3 + $0.7 * (of_int 1 - r)) in
    push_back vertices ($0.5 + $0.5 * fsin (t + φ))) vertices.

(** The Lorenz loop assigns the trajectory point [(x, y, z)] besides the
    vector; [lorenz_step] is its body.  Both variables are locals of the
    call, initialised before the loop. *)
Definition lorenz_step (σ ρ β dt t : F) (i : Z) (s : list F * (F * F * F))
  : list F * (F * F * F) :=
  let '(vertices, (x, y, z)) := s in
  let dx := σ * (y - x) in
  let dy := x * (ρ - z) - y in
  let dz := x * y - β * z in
  let x := x + dx * dt in
  let y := y + dy * dt in
  let z := z + dz * dt in
  let vertices := push_back vertices (x * $0.1) in
  let vertices := push_back vertices (y * $0.1 - $0.5) in
  let vertices := push_back vertices (z * $0.1 - $0.5) in
  let speed := fsqrt (dx * dx + dy * dy + dz * dz) in
  let vertices := push_back vertices (ffmin $1.0 (speed * $0.05)) in
  let vertices := push_back vertices ($0.2 + $0.8 * ffabs (fsin (speed + t))) in
  let vertices := push_back vertices ($1.0 - ffmin $1.0 (speed * $0.05)) in
  (vertices, (x, y, z)).

Definition generateLorenzAttractor this vertices t : list F :=
  let vertices := clear vertices in
  let steps := (5000 * getQualityMultiplier (qualityLevel this))%Z in
  let dt := $0.005 in
  let σ := $10.0 + $5.0 * fsin (t * $0.3) in
  let ρ := $28.0 + $10.0 * fcos (t * $0.5) in
  let β := $8.0 / $3.0 in
  let x := $0.1 in
  let y := $0.0 in
  let z := $0.0 in
  fst (for_each (range steps) (lorenz_step σ ρ β dt t) (vertices, (x, y, z))).

Definition generateKleinBottle this vertices t : list F :=
  let vertices := clear vertices in
  let qualityMult := getQualityMultiplier (qualityLevel this) in
  let uSeg := (100 * qualityMult)%Z in
  let vSeg := (50 * qualityMult)%Z in
  let r := $1.5 + $0.3 * fsin t in
  for_each (range uSeg) (fun iu vertices =>
    for_each (range vSeg) (fun iv vertices =>
      let u := of_int iu / of_int uSeg * $2.0 * M_PI in
      let v := of_int iv / of_int vSeg * $2.0 * M_PI in
      let x := (r + fcos (u / of_int 2) * fsin v - fsin (u / of_int 2) * fsin (of_int 2 * v)) * fcos u in
      let y := (r + fcos (u / of_int 2) * fsin v - fsin (u / of_int 2) * fsin (of_int 2 * v)) * fsin u in
      let z := fsin (u / of_int 2) * fsin v + fcos (u / of_int 2) * fsin (of_int 2 * v) in
      let vertices := push_back vertices (x * $0.3) in
      let vertices := push_back vertices (y * $0.3) in
      let vertices := push_back vertices (z * $0.3) in
      let vertices := push_back vertices ($0.5 + $0.5 * fsin (u + t)) in
      let vertices := push_back vertices ($0.5 + $0.5 * fcos (v + t * $1.2)) in
      push_back vertices ($0.5 + $0.5 * fsin (u + v + t * $0.7))) vertices) vertices.

(** The side of the gyroid's grid, and the iso-level it extracts. *)
Definition gyroid_finalGrid this : Z :=
  let base := 50 in
  let qm := getQualityMultiplier (qualityLevel this) in
  let grid := (base * qm)%Z in
  let maxGrid := 120 in
  Z.min grid maxGrid.

Definition gyroid_level t : F := fsin (t * $0.6) * $0.5.

(** The body of the gyroid's innermost loop: one grid cell, tested
    against the iso-level and emitted when it passes. *)
Definition gyroid_voxel (finalGrid : Z) (level t : F) (i j k : Z) vertices : list F :=
  let x := (of_int i / of_int finalGrid - $0.5) * $4.0 in
  let y := (of_int j / of_int finalGrid - $0.5) * $4.0 in
  let z := (of_int k / of_int finalGrid - $0.5) * $4.0 in
  let v := fsin x * fcos y + fsin y * fcos z + fsin z * fcos x in
  if ffabs (v - level) <? $0.05 then
    let vertices := push_back vertices x in
    let vertices := push_back vertices y in
    let vertices := push_back vertices z in
    let c := (v - level + $0.05) / $0.1 in
    let vertices := push_back vertices c in
    let vertices := push_back vertices ($1.0 - c) in
    push_back vertices ($0.5 + $0.5 * fsin t)
  else vertices.

Definition generateGyroid this vertices t : list F :=
  let vertices := clear vertices in
  let finalGrid := gyroid_finalGrid this in
  let level := gyroid_level t in
  for_each (range finalGrid) (fun i vertices =>
    for_each (range finalGrid) (fun j vertices =>
      for_each (range finalGrid) (fun k vertices =>
        gyroid_voxel finalGrid level t i j k vertices) vertices) vertices) vertices.

Definition generateSphericalHarmonic this vertices t : list F :=
  let vertices := clear vertices in
  let qualityMult := getQualityMultiplier (qualityLevel this) in
  let latSeg := (40 * qualityMult)%Z in
  let lonSeg := (80 * qualityMult)%Z in
  let ℓ := (2 + to_int ($2.0 * ffabs (fsin (t * $0.3)))%flt)%Z in
  let m := (ℓ / 2)%Z in
  let eps := $0.2 + $0.3 * ffabs (fcos (t * $0.4)) in
  for_each (range (latSeg + 1)) (fun i vertices =>
    let θ := M_PI * of_int i / of_int latSeg in
    for_each (range (lonSeg + 1)) (fun j vertices =>
      let φ := $2.0 * M_PI * of_int j / of_int lonSeg in
      let Y := sph_legendre ℓ m (fcos θ) * fcos (of_int m * φ) in
      let R := $1.0 + eps * Y in
      let x := R * fsin θ * fcos φ in
      let y := R * fsin θ * fsin φ in
      let z := R * fcos θ in
      let vertices := push_back vertices x in
      let vertices := push_back vertices y in
      let vertices := push_back vertices z in
      let vertices := push_back vertices ($0.5 + $0.5 * Y) in
      let vertices := push_back vertices ($0.5 - $0.5 * Y) in
      push_back vertices ($0.3 + $0.7 * ffabs (fsin (t + φ)))) vertices) vertices.

(** The escape-time loop
    [while (x * x + y * y < 4.0f && iter < maxI) { ... ++iter; }].
    Every round increments [iter], so [maxI - iter] rounds are enough:
    with that fuel the loop is never cut short. *)
Fixpoint escape_loop (fuel : nat) (maxI : Z) (x0 y0 x y : F) (iter : Z) : Z :=
  match fuel with
  | O => iter
  | S fuel =>
      if (x * x + y * y <? $4.0) && (iter <? maxI)%Z then
        let xt := x * x - y * y + x0 in
        let y := of_int 2 * x * y + y0 in
        let x := xt in
        escape_loop fuel maxI x0 y0 x y (iter + 1)
      else iter
  end.

Definition escape_time (x0 y0 : F) : Z :=
  let x := of_int 0 in
  let y := of_int 0 in
  let iter := 0%Z in
  let maxI := 100%Z in
  escape_loop (Z.to_nat (maxI - iter)) maxI x0 y0 x y iter.

Definition generateFractalZoom this vertices t : list F :=
  let vertices := clear vertices in
  let res := to_int (of_int 200 * fsqrt (of_int (getQualityMultiplier (qualityLevel this)))) in
  let zoom := $1.5 + $0.5 * fsin (t * $0.2) in
  let cx := $(-0.5) + $0.2 * fcos (t * $0.3) in
  let cy := $0.0 + $0.2 * fsin (t * $0.4) in
  for_each (range res) (fun i vertices =>
    for_each (range res) (fun j vertices =>
      let x0 := (of_int i / of_int res - $0.5) * zoom + cx in
      let y0 := (of_int j / of_int res - $0.5) * zoom + cy in
      let maxI := 100%Z in
      let iter := escape_time x0 y0 in
      let h := of_int iter / of_int maxI in
      let vertices := push_back vertices (of_int i / of_int res - $0.5) in
      let vertices := push_back vertices (h * $1.0 - $0.5) in
      let vertices := push_back vertices (of_int j / of_int res - $0.5) in
      let vertices := push_back vertices h in
      let vertices := push_back vertices ($0.5 * h) in
      push_back vertices ($1.0 - h)) vertices) vertices.

Definition generatePhyllotaxis this vertices t : list F :=
  let vertices := clear vertices in
  let seeds := (1000 * getQualityMultiplier (qualityLevel this))%Z in
  let angle0 := ($1.6180339887 + $0.1 * fsin (t * $0.5)) * M_PI in
  for_each (range seeds) (fun n vertices =>
    let θ := of_int n * angle0 in
    let r := $0.02 * fsqrt (of_int n) in
    let x := r * fcos θ in
    let y := r * fsin θ in
    let z := $0.0 in
    let vertices := push_back vertices x in
    let vertices := push_back vertices y in
    let vertices := push_back vertices z in
    let vertices := push_back vertices ($0.5 + $0.5 * fsin (θ + t)) in
    let vertices := push_back vertices ($0.5 + $0.5 * fcos (θ + t * $1.2)) in
    push_back vertices ($0.5 + $0.5 * fsin t)) vertices.

(** [std::array<float, 4>]. *)
Definition array4 : Type := F * F * F * F.
Definition at0 (v : array4) : F := let '(a, _, _, _) := v in a.
Definition at1 (v : array4) : F := let '(_, b, _, _) := v in b.
Definition at2 (v : array4) : F := let '(_, _, c, _) := v in c.
Definition at3 (v : array4) : F := let '(_, _, _, d) := v in d.

(** The three loops of [generateTesseract4D]: the sixteen corners
    [v[d] = (i & (1 << d)) ? 1.0f : -1.0f], their rotation in the x-w
    plane, and the perspective divide. *)
Definition tesseract_corner (i d : Z) : F :=
  if (Z.land i (Z.shiftl 1 d) =? 0)%Z then $(-1.0) else $1.0.

Definition tesseract_pts4 : list array4 :=
  for_each (range 16) (fun i pts4 =>
    let v := (tesseract_corner i 0, tesseract_corner i 1,
              tesseract_corner i 2, tesseract_corner i 3) in
    push_back pts4 v) [].

Definition tesseract_rotate t (pts4 : list array4) : list array4 :=
  let c := fcos (t * $0.3) in
  let s := fsin (t * $0.3) in
  map (fun v =>
    let x := at0 v in
    let w := at3 v in
    (c * x - s * w, at1 v, at2 v, s * x + c * w)) pts4.

Definition tesseract_dist t : F := $3.0 + fsin (t * $0.5).

Definition generateTesseract4D this vertices t : list F :=
  let vertices := clear vertices in
  let pts4 := tesseract_pts4 in
  let pts4 := tesseract_rotate t pts4 in
  let dist := tesseract_dist t in
  for_each pts4 (fun v vertices =>
    let w := $1.0 / (dist - at3 v) in
    let x := at0 v * w in
    let y := at1 v * w in
    let z := at2 v * w in
    let vertices := push_back vertices x in
    let vertices := push_back vertices y in
    let vertices := push_back vertices z in
    let vertices := push_back vertices ($0.5 + $0.5 * at3 v) in
    let vertices := push_back vertices ($1.0 - $0.5 * at3 v) in
    push_back vertices ($0.5 + $0.5 * fsin t)) vertices.

Definition generateWaveInterference this vertices t : list F :=
  let vertices := clear vertices in
  let grid := to_int (of_int 100 * fsqrt (of_int (getQualityMultiplier (qualityLevel this)))) in
  let size := $4.0 in
  let k1 := $2.0 + fsin (t * $0.3) in
  let k2 := $3.0 + fcos (t * $0.4) in
  let ω1 := $1.5 + fcos (t * $0.5) in
  let ω2 := $1.0 + fsin (t * $0.6) in
  for_each (range grid) (fun i vertices =>
    for_each (range grid) (fun j vertices =>
      let x := (of_int i / of_int grid - $0.5) * size in
      let z := (of_int j / of_int grid - $0.5) * size in
      let y := $0.5 * (fsin (k1 * x - ω1 * t) + fsin (k2 * z - ω2 * t)) in
      let vertices := push_back vertices x in
      let vertices := push_back vertices y in
      let vertices := push_back vertices z in
      let h := (y + $1.0) * $0.5 in
      let vertices := push_back vertices h in
      let vertices := push_back vertices ($1.0 - h) in
      push_back vertices ($0.5 + $0.5 * fsin t)) vertices) vertices.

(** [vertices.insert(vertices.end(), {a, b, c, d, e, f})]. *)
Definition insert_end vertices (l : list F) : list F := vertices ++ l.

(** In [generateGravitationalSpacetime] the local [float t = r / extent]
    hides the time parameter [t] wherever it is in scope; the parameter
    itself is never read. *)
Definition generateGravitationalSpacetime this vertices t : list F :=
  let vertices := clear vertices in
  let gridSize := 80%Z in
  let extent := $4.0 in
  let gridLines := 15%Z in
  let vertices :=
    for_each (range gridSize) (fun i vertices =>
      let x := of_int i / of_int (gridSize - 1) * $2.0 * extent - extent in
      for_each (range gridSize) (fun j vertices =>
        let z := of_int j / of_int (gridSize - 1) * $2.0 * extent - extent in
        let r := fsqrt (x * x + z * z) in
        let y := $0.0 in
        let y :=
          if r <? extent then
            let t := r / extent in
            let depth := centralMass this * maxDeformation this in
            let steepness := $4.0 * centralMass this in
            let well := $1.0 / ($1.0 + steepness * t * t) in
            let parabolic := $1.0 - t * t in
            let blend := fexp ($(-3.0) * t) in
            - depth * (blend * well + ($1.0 - blend) * parabolic)
          else y in
        insert_end vertices [x; y; z; $0.6; $0.6; $0.6]) vertices) vertices in
  for_each (range gridLines) (fun line vertices =>
    let coord := of_int line / of_int (gridLines - 1) * $2.0 * extent - extent in
    let vertices :=
      for_each (range_by gridSize 3) (fun j vertices =>
        let z := of_int j / of_int (gridSize - 1) * $2.0 * extent - extent in
        let r := fsqrt (coord * coord + z * z) in
        let y := $0.01 in
        let y :=
          if r <? extent then
            let t := r / extent in
            let depth := centralMass this * maxDeformation this in
            let steepness := $4.0 * centralMass this in
            let well := $1.0 / ($1.0 + steepness * t * t) in
            let parabolic := $1.0 - t * t in
            let blend := fexp ($(-3.0) * t) in
            - depth * (blend * well + ($1.0 - blend) * parabolic) + $0.01
          else y in
        insert_end vertices [coord; y; z; $1.0; $1.0; $1.0]) vertices in
    for_each (range_by gridSize 3) (fun i vertices =>
      let x := of_int i / of_int (gridSize - 1) * $2.0 * extent - extent in
      let r := fsqrt (x * x + coord * coord) in
      let y := $0.01 in
      let y :=
        if r <? extent then
          let t := r / extent in
          let depth := centralMass this * maxDeformation this in
          let steepness := $4.0 * centralMass this in
          let well := $1.0 / ($1.0 + steepness * t * t) in
          let parabolic := $1.0 - t * t in
          let blend := fexp ($(-3.0) * t) in
          - depth * (blend * well + ($1.0 - blend) * parabolic) + $0.01
        else y in
      insert_end vertices [x; y; coord; $1.0; $1.0; $1.0]) vertices) vertices.

(** The grid side of the three square-grid modes,
    [(int)(base * sqrt(getQualityMultiplier()))]. *)
Definition sqrt_side (base : Z) this : Z :=
  to_int (of_int base * fsqrt (of_int (getQualityMultiplier (qualityLevel this)))).

(** ** Mode dispatch *)

(** The part of [render] that rebuilds the vertex vector: the switch on
    [animationMode], given the clock value read by [glfwGetTime()].  A
    mode outside 0..15 matches no case and leaves the vector as it was.
    The camera update and the calls into the graphics back end that
    surround the switch are not modelled. *)
Definition render this (glfwGetTime : F) : MathAnimation F :=
  let time := glfwGetTime in
  match animationMode this with
  | 0 => set_vertices this (generateParametricSpiral this (vertices this) time)
  | 1 => set_vertices this (generateLissajous this (vertices this) time)
  | 2 => set_vertices this (generate3DHelix this (vertices this) time)
  | 3 => set_vertices this (generateSineWaveSurface this (vertices this) time)
  | 4 => set_vertices this (generateTorus this (vertices this) time)
  | 5 => set_vertices this (generateHypotrochoid this (vertices this) time)
  | 6 => set_vertices this (generateSuperformula this (vertices this) time)
  | 7 => set_vertices this (generateLorenzAttractor this (vertices this) time)
  | 8 => set_vertices this (generateKleinBottle this (vertices this) time)
  | 9 => set_vertices this (generateGyroid this (vertices this) time)
  | 10 => set_vertices this (generateSphericalHarmonic this (vertices this) time)
  | 11 => set_vertices this (generateFractalZoom this (vertices this) time)
  | 12 => set_vertices this (generatePhyllotaxis this (vertices this) time)
  | 13 => set_vertices this (generateTesseract4D this (vertices this) time)
  | 14 => set_vertices this (generateWaveInterference this (vertices this) time)
  | 15 => set_vertices this (generateGravitationalSpacetime this (vertices this) time)
  | _ => this
  end.

(** The generation call of the external interface,
    [generate(mode, time, qualityLevel, centralMass)]: the vertex stream
    that one frame produces on an object [this] whose mode, quality level
    and central mass are the given ones. *)
Definition generate (mode : Z) (t : F) (q : Z) (m : F) this : list F :=
  let this := set_animationMode this mode in
  let this := set_qualityLevel this q in
  let this := set_centralMass this m in
  vertices (render this t).

(** The key presses of [keyCallback] that reach the engine. *)
Inductive Key : Set :=
| KEY_1 | KEY_2 | KEY_3 | KEY_4 | KEY_5 | KEY_6 | KEY_7 | KEY_8 | KEY_9 | KEY_0
| KEY_Q | KEY_TAB | KEY_E | KEY_R | KEY_T | KEY_G
| KEY_EQUAL | KEY_KP_ADD | KEY_MINUS | KEY_KP_SUBTRACT
| KEY_K
| KEY_F5 | KEY_F6 | KEY_F7 | KEY_F8.

Definition keyCallback (app : MathAnimation F) (key : Key) : MathAnimation F :=
  match key with
  | KEY_1 => set_animationMode app 0
  | KEY_2 => set_animationMode app 1
  | KEY_3 => set_animationMode app 2
  | KEY_4 => set_animationMode app 3
  | KEY_5 => set_animationMode app 4
  | KEY_6 => set_animationMode app 5
  | KEY_7 => set_animationMode app 6
  | KEY_8 => set_animationMode app 7
  | KEY_9 => set_animationMode app 8
  | KEY_0 => set_animationMode app 9
  | KEY_Q => set_animationMode app 10
  | KEY_TAB => set_animationMode app 11
  | KEY_E => set_animationMode app 12
  | KEY_R => set_animationMode app 13
  | KEY_T => set_animationMode app 14
  | KEY_G => set_animationMode app 15
  | KEY_EQUAL | KEY_KP_ADD => increaseMass app
  | KEY_MINUS | KEY_KP_SUBTRACT => decreaseMass app
  | KEY_K =>
      let app := set_cameraPos app ($0.0, $0.0, $5.0) in
      let app := set_centralMass app $0.5 in
      set_vertices app (generateGravitationalSpacetime app (vertices app) $0.0)
  | KEY_F5 => setQuality app 0
  | KEY_F6 => setQuality app 1
  | KEY_F7 => setQuality app 2
  | KEY_F8 => setQuality app 3
  end.

End Generators.

(** ** The real-number model *)

Module RealModel.
Local Open Scope R_scope.

Definition ltb (x y : R) : bool := if Rlt_dec x y then true else false.

(** Conversion to [int] truncates toward zero. *)
Definition trunc (r : R) : Z :=
  if Rle_dec 0 r then Int_part r else (- Int_part (- r))%Z.

(** [powf] on a positive base is [exp (y * ln x)], and [0^y = 0] for
    [y > 0].  The remaining cases are NaN or an infinity in C and have no
    real value; the generators never reach them ([fabs] is applied to
    every base). *)
Definition pow (x y : R) : R :=
  if Rlt_dec 0 x then Rpower x y else if Rlt_dec 0 y then 0 else 1.

Definition fmod (x y : R) : R := x - IZR (trunc (x / y)) * y.

#[global] Instance arith : FloatArith R := {|
  flit := Q2R;
  of_int := IZR;
  fneg := Ropp;
  fadd := Rplus;
  fsub := Rminus;
  fmul := Rmult;
  fdiv := Rdiv;
  fltb := ltb
|}.

(** An object whose storage was all zero before construction. *)
Definition zero_storage : MathAnimation R :=
  mkMathAnimation [] 0 0 0 0 0 0 0 0 0 0 0 (0, 0, 0) 0 0 0 0 false 0 0 0 0.

#[global] Instance math : FloatMath R := {|
  M_PI := PI;
  fsin := sin;
  fcos := cos;
  facos := acos;
  fsqrt := sqrt;
  fexp := exp;
  ffabs := Rabs;
  fpow := pow;
  ffmod := fmod;
  ffmin := Rmin;
  to_int := trunc
|}.

End RealModel.


(** ** The input callbacks and the draw call *)

(** A predicate on every vertex of a stream: the stream splits into groups
    of six floats, position then colour, each satisfying [P]. *)
Inductive all_vertices {F : Type} (P : F -> F -> F -> F -> F -> F -> Prop)
  : list F -> Prop :=
| all_vertices_nil : all_vertices P []
| all_vertices_cons (x y z r g b : F) (l : list F) :
    P x y z r g b -> all_vertices P l ->
    all_vertices P (x :: y :: z :: r :: g :: b :: l).

(** The draw topology [render] selects. *)
Inductive Topology : Set := GL_POINTS | GL_LINE_STRIP.

(** The [double] arithmetic of the two cursor callbacks: their arguments
    are [double], a [float] member that meets a [double] operand is widened
    to [double], and the result is narrowed when it is stored in a [float]
    member. *)
Class DoubleArith (F D : Type) := {
  widen : F -> D;
  narrow : D -> F;
  dadd : D -> D -> D;
  dsub : D -> D -> D;
  dmul : D -> D -> D
}.

(** binary64 over binary32: widening is exact, narrowing rounds to the
    nearest binary32 value. *)
Module F64.

Definition prec : Z := 53.
Definition emax : Z := 1024.

Definition f64 : Type := spec_float.

Definition of_float (x : F32.f32) : f64 := x.

Definition to_float (x : f64) : F32.f32 :=
  match x with
  | S754_finite s m e =>
      binary_normalize F32.prec F32.emax (cond_Zopp s (Zpos m)) e s
  | _ => x
  end.

#[global] Instance double : DoubleArith F32.f32 f64 := {|
  widen := of_float;
  narrow := to_float;
  dadd := SFadd prec emax;
  dsub := SFsub prec emax;
  dmul := SFmul prec emax
|}.

End F64.

(** On real numbers the two precisions coincide. *)
Module RealDouble.

#[global] Instance double : DoubleArith R R := {|
  widen := fun x => x;
  narrow := fun x => x;
  dadd := Rplus;
  dsub := Rminus;
  dmul := Rmult
|}.

End RealDouble.

Section Callbacks.
Context {F D : Type} {FA : FloatArith F} {DA : DoubleArith F D}.
Local Open Scope flt_scope.

Implicit Types (this app : MathAnimation F).

Definition set_backgroundMode this (b : Z) : MathAnimation F :=
  mkMathAnimation (vertices this) (time this) (animationMode this) b
    (centralMass this) (maxDeformation this) (targetFPS this) (frameTime this)
    (lastFrameTime this) (qualityLevel this) (windowWidth this) (windowHeight this)
    (cameraPos this) (yaw this) (pitch this) (mouseSensitivity this)
    (cameraSpeed this) (firstMouse this) (lastX this) (lastY this)
    (deltaTime this) (lastFrame this).

Definition set_cameraSpeed this (s : F) : MathAnimation F :=
  mkMathAnimation (vertices this) (time this) (animationMode this) (backgroundMode this)
    (centralMass this) (maxDeformation this) (targetFPS this) (frameTime this)
    (lastFrameTime this) (qualityLevel this) (windowWidth this) (windowHeight this)
    (cameraPos this) (yaw this) (pitch this) (mouseSensitivity this)
    s (firstMouse this) (lastX this) (lastY this)
    (deltaTime this) (lastFrame this).

(** Assigns the five members [mouseCallback] writes. *)
Definition set_look this (yaw' pitch' : F) (firstMouse' : bool) (lastX' lastY' : F)
  : MathAnimation F :=
  mkMathAnimation (vertices this) (time this) (animationMode this) (backgroundMode this)
    (centralMass this) (maxDeformation this) (targetFPS this) (frameTime this)
    (lastFrameTime this) (qualityLevel this) (windowWidth this) (windowHeight this)
    (cameraPos this) yaw' pitch' (mouseSensitivity this)
    (cameraSpeed this) firstMouse' lastX' lastY'
    (deltaTime this) (lastFrame this).

(** [mouseCallback].  The offsets are [double]; [yaw += xoffset] adds in
    [double] and stores a [float].  Its last statement,
    [updateCameraVectors()], only recomputes the derived camera vectors,
    which are not members of the embedding. *)
Definition mouseCallback app (xpos ypos : D) : MathAnimation F :=
  let '(lastX0, lastY0, firstMouse0) :=
    if firstMouse app then (narrow xpos, narrow ypos, false)
    else (lastX app, lastY app, firstMouse app) in
  let xoffset := dsub xpos (widen lastX0) in
  let yoffset := dsub (widen lastY0) ypos in
  let lastX1 := narrow xpos in
  let lastY1 := narrow ypos in
  let xoffset := dmul xoffset (widen (mouseSensitivity app)) in
  let yoffset := dmul yoffset (widen (mouseSensitivity app)) in
  let yaw1 := narrow (dadd (widen (yaw app)) xoffset) in
  let pitch1 := narrow (dadd (widen (pitch app)) yoffset) in
  let pitch1 := if $89.0 <? pitch1 then $89.0 else pitch1 in
  let pitch1 := if pitch1 <? $(-89.0) then $(-89.0) else pitch1 in
  set_look app yaw1 pitch1 firstMouse0 lastX1 lastY1.

(** [scrollCallback]; the horizontal offset is not used. *)
Definition scrollCallback app (xoffset yoffset : D) : MathAnimation F :=
  let cameraSpeed :=
    narrow (dadd (widen (cameraSpeed app)) (dmul yoffset (widen ($0.5)))) in
  let cameraSpeed := if cameraSpeed <? $0.5 then $0.5 else cameraSpeed in
  let cameraSpeed := if $10.0 <? cameraSpeed then $10.0 else cameraSpeed in
  set_cameraSpeed app cameraSpeed.

(** The palette the constructor stores in [backgrounds]. *)
Definition backgrounds : list (F * F * F) :=
  [ ($0.05, $0.05, $0.2);
    ($0.0, $0.0, $0.0);
    ($0.15, $0.05, $0.2);
    ($0.05, $0.2, $0.05);
    ($0.1, $0.1, $0.15);
    ($0.05, $0.1, $0.1);
    ($0.15, $0.05, $0.05) ].

(** [updateBackgroundColor]: the arguments it passes to [glClearColor], or
    [None] when [backgrounds[backgroundMode]] reads outside the vector. *)
Definition updateBackgroundColor this : option (F * F * F * F) :=
  if (backgroundMode this <? 0)%Z then None
  else match nth_error backgrounds (Z.to_nat (backgroundMode this)) with
       | Some (r, g, b) => Some (r, g, b, $1.0)
       | None => None
       end.

(** Key B: [backgroundMode = (backgroundMode + 1) % backgrounds.size()],
    followed by [updateBackgroundColor()].  The sum is converted to the
    unsigned 64-bit [size_t] of the divisor before the remainder is
    taken. *)
Definition cycleBackground app : MathAnimation F :=
  let size := Z.of_nat (length backgrounds) in
  set_backgroundMode app (((backgroundMode app + 1) mod 2 ^ 64) mod size)%Z.

(** The draw call at the end of [render]: the topology and the vertex
    count [vertices.size() / 6] passed to [glDrawArrays]. *)
Definition drawArrays this : Topology * Z :=
  let count := (Z.of_nat (length (vertices this)) / 6)%Z in
  if (animationMode this =? 3)%Z || (animationMode this =? 9)%Z
     || (animationMode this =? 11)%Z || (animationMode this =? 14)%Z
  then (GL_POINTS, count)
  else (GL_LINE_STRIP, count).

End Callbacks.

(** ** The main loop *)

Section MainLoop.
Context {F : Type} {FA : FloatArith F} {FM : FloatMath F}.

(** One round of the loop of [run]: [glfwPollEvents()] delivers the key
    presses that arrived since the last round, in order, then [render()]
    draws a frame at the clock value it reads. *)
Definition loop_round (app : MathAnimation F) (input : list Key * F) : MathAnimation F :=
  let app := fold_left keyCallback (fst input) app in
  render app (snd input).

(** The object after the loop of [run] has gone through the given rounds. *)
Definition run (app : MathAnimation F) (rounds : list (list Key * F)) : MathAnimation F :=
  fold_left loop_round rounds app.

End MainLoop.
(** * Properties *)

(** ** Loops that append *)

Section Loops.
Context {A B : Type}.

Lemma for_each_nil {S : Type} (body : A -> S -> S) (s : S) :
  for_each [] body s = s.
Proof. reflexivity. Qed.

Lemma for_each_cons {S : Type} (body : A -> S -> S) (a : A) (l : list A) (s : S) :
  for_each (a :: l) body s = for_each l body (body a s).
Proof. reflexivity. Qed.

Lemma for_each_appends (body : A -> list B -> list B) (l : list A) (v : list B) :
  appends body ->
  for_each l body v = v ++ flat_map (fun a => body a []) l.
Proof.
  intros Hb. revert v.
  induction l as [|a l IH]; intros v.
  - rewrite for_each_nil. simpl. now rewrite app_nil_r.
  - rewrite for_each_cons, IH, (Hb a v). simpl. now rewrite <- app_assoc.
Qed.

Lemma flat_map_length_const (f : A -> list B) (k : nat) (l : list A) :
  (forall a, length (f a) = k) ->
  length (flat_map f l) = (k * length l)%nat.
Proof.
  intros Hf. induction l as [|a l IH]; simpl.
  - lia.
  - rewrite length_app, Hf, IH. lia.
Qed.

Lemma for_each_length (body : A -> list B -> list B) (k : nat) (l : list A) (v : list B) :
  appends body ->
  (forall a, length (body a []) = k) ->
  length (for_each l body v) = (length v + k * length l)%nat.
Proof.
  intros Hb Hk.
  rewrite for_each_appends by exact Hb.
  rewrite length_app, (flat_map_length_const _ k) by exact Hk.
  reflexivity.
Qed.

Lemma flat_map_length_divide (f : A -> list B) (k : nat) (l : list A) :
  (forall a, Nat.divide k (length (f a))) ->
  Nat.divide k (length (flat_map f l)).
Proof.
  intros Hf. induction l as [|a l IH]; simpl.
  - apply Nat.divide_0_r.
  - rewrite length_app. apply Nat.divide_add_r; auto.
Qed.

Lemma flat_map_not_nil (f : A -> list B) (l : list A) (a : A) :
  In a l -> f a <> [] -> flat_map f l <> [].
Proof.
  intros Hin Hne Hnil.
  induction l as [|b l IH]; simpl in *.
  - contradiction.
  - apply app_eq_nil in Hnil. destruct Hnil as [H1 H2].
    destruct Hin as [-> | Hin]; [ now apply Hne | now apply IH ].
Qed.

End Loops.

Lemma appends_for_each {A B C : Type} (ls : A -> list C)
      (body : A -> C -> list B -> list B) :
  (forall a, appends (fun c v => body a c v)) ->
  appends (fun a v => for_each (ls a) (body a) v).
Proof.
  intros Hb a v.
  rewrite (for_each_appends (body a) (ls a) v (Hb a)).
  rewrite (for_each_appends (body a) (ls a) [] (Hb a)).
  reflexivity.
Qed.

Lemma range_length (n : Z) : length (range n) = Z.to_nat n.
Proof. unfold range. now rewrite length_map, length_seq. Qed.

Lemma range_In (n i : Z) : 0 <= i < n -> In i (range n).
Proof.
  intros Hi. unfold range. apply in_map_iff.
  exists (Z.to_nat i). split; [ lia | apply in_seq; lia ].
Qed.

Lemma range_In_inv (n i : Z) : In i (range n) -> 0 <= i < n.
Proof.
  unfold range. intros Hin. apply in_map_iff in Hin.
  destruct Hin as [k [<- Hk]]. apply in_seq in Hk. lia.
Qed.

Lemma range_head (n : Z) :
  0 < n -> exists l, range n = 0 :: l.
Proof.
  intros Hn. unfold range.
  destruct (Z.to_nat n) as [|k] eqn:E; [ lia | ].
  simpl. eexists. reflexivity.
Qed.

Lemma range_by_length (n step : Z) :
  length (range_by n step) = Z.to_nat ((n + step - 1) / step).
Proof. unfold range_by. now rewrite length_map, range_length. Qed.

(** Unfolds the six [push_back]s of a loop body and shows that the body
    appends. *)
Ltac appends_tac :=
  repeat (apply appends_for_each; intros ?);
  intros ? ?; cbv beta zeta delta [push_back insert_end gyroid_voxel];
  repeat match goal with
         | |- context [if ?c then _ else _] => destruct c
         end;
  rewrite <- ?app_assoc, ?app_nil_r; reflexivity.

(** ** Vertex counts *)

Lemma getQualityMultiplier_cases (q : Z) :
  getQualityMultiplier q = 1 \/ getQualityMultiplier q = 2 \/
  getQualityMultiplier q = 4 \/ getQualityMultiplier q = 8.
Proof.
  unfold getQualityMultiplier.
  destruct q as [|[[|[]|]|[|[]|]|]|]; auto.
Qed.

Lemma getQualityMultiplier_pos (q : Z) : 0 < getQualityMultiplier q.
Proof. destruct (getQualityMultiplier_cases q) as [H|[H|[H|H]]]; rewrite H; lia. Qed.

(** One loop of six-float vertices. *)
Ltac single_loop :=
  cbv zeta;
  rewrite for_each_length with (k := 6%nat);
  [ rewrite range_length; reflexivity | appends_tac | reflexivity ].

(** Two nested loops of six-float vertices, [inner] rounds inside. *)
Ltac double_loop inner :=
  cbv zeta;
  rewrite for_each_length with (k := (6 * inner)%nat);
  [ rewrite range_length; unfold clear; simpl length; lia
  | appends_tac
  | intros ?; rewrite for_each_length with (k := 6%nat);
    [ rewrite range_length; reflexivity | appends_tac | reflexivity ] ].

Section Counts.
Context {F : Type} {FA : FloatArith F} {FM : FloatMath F}.
Implicit Types (this : MathAnimation F) (v : list F) (t : F).

Lemma generateParametricSpiral_length this v t :
  length (generateParametricSpiral this v t) =
  (6 * Z.to_nat (1000 * getQualityMultiplier (qualityLevel this)))%nat.
Proof. unfold generateParametricSpiral. single_loop. Qed.

Lemma generateLissajous_length this v t :
  length (generateLissajous this v t) =
  (6 * Z.to_nat (2000 * getQualityMultiplier (qualityLevel this)))%nat.
Proof. unfold generateLissajous. single_loop. Qed.

Lemma generate3DHelix_length this v t :
  length (generate3DHelix this v t) =
  (6 * Z.to_nat (1500 * getQualityMultiplier (qualityLevel this)))%nat.
Proof. unfold generate3DHelix. single_loop. Qed.

Lemma generateSineWaveSurface_length this v t :
  length (generateSineWaveSurface this v t) =
  (6 * (Z.to_nat (sqrt_side 80 this) * Z.to_nat (sqrt_side 80 this)))%nat.
Proof.
  unfold generateSineWaveSurface, sqrt_side.
  double_loop (Z.to_nat (to_int (fmul (of_int 80)
    (fsqrt (of_int (getQualityMultiplier (qualityLevel this))))))).
Qed.

Lemma generateTorus_length this v t :
  length (generateTorus this v t) =
  (6 * (Z.to_nat (60 * getQualityMultiplier (qualityLevel this)) *
        Z.to_nat (40 * getQualityMultiplier (qualityLevel this))))%nat.
Proof.
  unfold generateTorus.
  double_loop (Z.to_nat (40 * getQualityMultiplier (qualityLevel this))).
Qed.

Lemma generateHypotrochoid_length this v t :
  length (generateHypotrochoid this v t) =
  (6 * Z.to_nat (2000 * getQualityMultiplier (qualityLevel this)))%nat.
Proof. unfold generateHypotrochoid. single_loop. Qed.

Lemma generateSuperformula_length this v t :
  length (generateSuperformula this v t) =
  (6 * Z.to_nat (1000 * getQualityMultiplier (qualityLevel this)))%nat.
Proof. unfold generateSuperformula. single_loop. Qed.

(** The Lorenz loop carries the trajectory point next to the vector. *)
Lemma lorenz_loop_prefix (σ ρ β dt t : F) (l : list Z) (v : list F) (p : F * F * F) :
  exists w, fst (for_each l (lorenz_step σ ρ β dt t) (v, p)) = v ++ w /\
            length w = (6 * length l)%nat.
Proof.
  revert v p. induction l as [|i l IH]; intros v [[x y] z].
  - exists []. rewrite for_each_nil. simpl. now rewrite app_nil_r.
  - rewrite for_each_cons. unfold lorenz_step at 2. cbv beta iota zeta.
    match goal with
    | |- context [for_each l _ (?v', ?p')] => destruct (IH v' p') as [w [Hw Hl]]
    end.
    rewrite Hw. unfold push_back. rewrite <- !app_assoc. simpl.
    eexists. split; [ reflexivity | ]. simpl. rewrite Hl. lia.
Qed.

Lemma lorenz_loop_length (σ ρ β dt t : F) (l : list Z) (v : list F) (p : F * F * F) :
  length (fst (for_each l (lorenz_step σ ρ β dt t) (v, p))) = (length v + 6 * length l)%nat.
Proof.
  destruct (lorenz_loop_prefix σ ρ β dt t l v p) as [w [-> Hl]].
  rewrite length_app, Hl. reflexivity.
Qed.

Lemma generateLorenzAttractor_length this v t :
  length (generateLorenzAttractor this v t) =
  (6 * Z.to_nat (5000 * getQualityMultiplier (qualityLevel this)))%nat.
Proof.
  unfold generateLorenzAttractor. cbv zeta.
  rewrite lorenz_loop_length, range_length. reflexivity.
Qed.

Lemma generateKleinBottle_length this v t :
  length (generateKleinBottle this v t) =
  (6 * (Z.to_nat (100 * getQualityMultiplier (qualityLevel this)) *
        Z.to_nat (50 * getQualityMultiplier (qualityLevel this))))%nat.
Proof.
  unfold generateKleinBottle.
  double_loop (Z.to_nat (50 * getQualityMultiplier (qualityLevel this))).
Qed.

Lemma generateSphericalHarmonic_length this v t :
  length (generateSphericalHarmonic this v t) =
  (6 * (Z.to_nat (40 * getQualityMultiplier (qualityLevel this) + 1) *
        Z.to_nat (80 * getQualityMultiplier (qualityLevel this) + 1)))%nat.
Proof.
  unfold generateSphericalHarmonic.
  double_loop (Z.to_nat (80 * getQualityMultiplier (qualityLevel this) + 1)).
Qed.

Lemma generateFractalZoom_length this v t :
  length (generateFractalZoom this v t) =
  (6 * (Z.to_nat (sqrt_side 200 this) * Z.to_nat (sqrt_side 200 this)))%nat.
Proof.
  unfold generateFractalZoom, sqrt_side.
  double_loop (Z.to_nat (to_int (fmul (of_int 200)
    (fsqrt (of_int (getQualityMultiplier (qualityLevel this))))))).
Qed.

Lemma generatePhyllotaxis_length this v t :
  length (generatePhyllotaxis this v t) =
  (6 * Z.to_nat (1000 * getQualityMultiplier (qualityLevel this)))%nat.
Proof. unfold generatePhyllotaxis. single_loop. Qed.

Lemma tesseract_rotate_length t (pts4 : list array4) :
  length (tesseract_rotate t pts4) = length pts4.
Proof. unfold tesseract_rotate. cbv zeta. apply length_map. Qed.

Lemma generateTesseract4D_length this v t :
  length (generateTesseract4D this v t) = (6 * 16)%nat.
Proof.
  unfold generateTesseract4D. cbv zeta.
  rewrite for_each_length with (k := 6%nat);
    [ rewrite tesseract_rotate_length; reflexivity | appends_tac | reflexivity ].
Qed.

Lemma generateWaveInterference_length this v t :
  length (generateWaveInterference this v t) =
  (6 * (Z.to_nat (sqrt_side 100 this) * Z.to_nat (sqrt_side 100 this)))%nat.
Proof.
  unfold generateWaveInterference, sqrt_side.
  double_loop (Z.to_nat (to_int (fmul (of_int 100)
    (fsqrt (of_int (getQualityMultiplier (qualityLevel this))))))).
Qed.

Lemma generateGravitationalSpacetime_length this v t :
  length (generateGravitationalSpacetime this v t) = (6 * (80 * 80 + 15 * (27 + 27)))%nat.
Proof.
  unfold generateGravitationalSpacetime. cbv zeta.
  rewrite for_each_length with (k := (6 * 27 + 6 * 27)%nat).
  - rewrite for_each_length with (k := (6 * 80)%nat).
    + rewrite !range_length. unfold clear. simpl length. lia.
    + appends_tac.
    + intros i. rewrite for_each_length with (k := 6%nat);
        [ rewrite range_length; reflexivity | appends_tac | reflexivity ].
  - intros line w.
    rewrite (for_each_appends _ _ (for_each _ _ w)) by appends_tac.
    rewrite (for_each_appends _ _ (for_each _ _ [])) by appends_tac.
    rewrite (for_each_appends _ _ w) by appends_tac.
    rewrite (for_each_appends _ _ []) by appends_tac.
    rewrite <- !app_assoc. reflexivity.
  - intros line.
    rewrite for_each_length with (k := 6%nat); [ | appends_tac | reflexivity ].
    rewrite for_each_length with (k := 6%nat); [ | appends_tac | reflexivity ].
    rewrite range_by_length. reflexivity.
Qed.

Lemma generateGyroid_length_divide this v t :
  Nat.divide 6 (length (generateGyroid this v t)).
Proof.
  unfold generateGyroid. cbv zeta.
  rewrite for_each_appends by appends_tac.
  apply flat_map_length_divide. intros i.
  rewrite for_each_appends by appends_tac.
  apply flat_map_length_divide. intros j.
  rewrite for_each_appends by appends_tac.
  apply flat_map_length_divide. intros k.
  unfold gyroid_voxel. cbv zeta. destruct (fltb _ _).
  - exists 1%nat. reflexivity.
  - exists 0%nat. reflexivity.
Qed.

End Counts.

(** ** The escape-time loop terminates on its own *)

Section EscapeLoop.
Context {F : Type} {FA : FloatArith F} {FM : FloatMath F}.

(** With at least [maxI - iter] rounds of fuel the result does not depend
    on the fuel: the loop always leaves through its own condition. *)
Lemma escape_loop_fuel (fuel fuel' : nat) (maxI : Z) (x0 y0 x y : F) (iter : Z) :
  (Z.to_nat (maxI - iter) <= fuel)%nat ->
  (Z.to_nat (maxI - iter) <= fuel')%nat ->
  escape_loop fuel maxI x0 y0 x y iter = escape_loop fuel' maxI x0 y0 x y iter.
Proof.
  revert fuel' x y iter.
  induction fuel as [|fuel IH]; intros fuel' x y iter H1 H2.
  - destruct fuel' as [|fuel']; [ reflexivity | ].
    cbn [escape_loop].
    replace (iter <? maxI) with false by (symmetry; apply Z.ltb_ge; lia).
    now rewrite andb_false_r.
  - destruct fuel' as [|fuel'].
    + cbn [escape_loop].
      replace (iter <? maxI) with false by (symmetry; apply Z.ltb_ge; lia).
      now rewrite andb_false_r.
    + cbn [escape_loop].
      destruct (iter <? maxI) eqn:E; [ | now rewrite andb_false_r ].
      apply Z.ltb_lt in E.
      destruct (fltb _ _); [ | reflexivity ].
      cbn [andb]. apply IH; lia.
Qed.

Lemma escape_loop_bounds (fuel : nat) (maxI : Z) (x0 y0 x y : F) (iter : Z) :
  iter <= maxI ->
  iter <= escape_loop fuel maxI x0 y0 x y iter <= maxI.
Proof.
  revert x y iter. induction fuel as [|fuel IH]; intros x y iter Hi.
  - cbn [escape_loop]. lia.
  - cbn [escape_loop].
    destruct (iter <? maxI) eqn:E; [ | rewrite andb_false_r; lia ].
    apply Z.ltb_lt in E.
    destruct (fltb _ _); cbn [andb]; [ | lia ].
    match goal with
    | |- _ <= escape_loop fuel maxI x0 y0 ?a ?b ?c <= _ =>
        specialize (IH a b c)
    end.
    lia.
Qed.

Lemma escape_time_bounds (x0 y0 : F) : 0 <= escape_time x0 y0 <= 100.
Proof. unfold escape_time. cbv zeta. apply escape_loop_bounds. lia. Qed.

End EscapeLoop.

(** ** What a frame depends on *)

Section Frame.
Context {F : Type} {FA : FloatArith F} {FM : FloatMath F}.
Implicit Types (this a b : MathAnimation F) (v : list F) (t : F).

(** Splits a mode in 0..15 into its sixteen values. *)
Lemma mode_cases (mode : Z) :
  0 <= mode <= 15 ->
  mode = 0 \/ mode = 1 \/ mode = 2 \/ mode = 3 \/ mode = 4 \/ mode = 5 \/
  mode = 6 \/ mode = 7 \/ mode = 8 \/ mode = 9 \/ mode = 10 \/ mode = 11 \/
  mode = 12 \/ mode = 13 \/ mode = 14 \/ mode = 15.
Proof. lia. Qed.

(** The vector a frame produces is a function of the mode, the clock, the
    quality level, the central mass and the deformation constant; the
    previous content of the vector and every other member are
    irrelevant. *)
Lemma render_vertices_frame a b t :
  0 <= animationMode a <= 15 ->
  animationMode a = animationMode b ->
  qualityLevel a = qualityLevel b ->
  centralMass a = centralMass b ->
  maxDeformation a = maxDeformation b ->
  vertices (render a t) = vertices (render b t).
Proof.
  intros Hr Hm Hq Hc Hd. unfold render. rewrite <- Hm.
  destruct (mode_cases _ Hr) as
    [E|[E|[E|[E|[E|[E|[E|[E|[E|[E|[E|[E|[E|[E|[E|E]]]]]]]]]]]]]]];
    rewrite E; cbv beta iota zeta; cbn [vertices set_vertices];
    [ unfold generateParametricSpiral | unfold generateLissajous
    | unfold generate3DHelix | unfold generateSineWaveSurface
    | unfold generateTorus | unfold generateHypotrochoid
    | unfold generateSuperformula | unfold generateLorenzAttractor
    | unfold generateKleinBottle | unfold generateGyroid, gyroid_finalGrid
    | unfold generateSphericalHarmonic | unfold generateFractalZoom
    | unfold generatePhyllotaxis | unfold generateTesseract4D
    | unfold generateWaveInterference | unfold generateGravitationalSpacetime ];
    unfold clear; rewrite ?Hq, ?Hc, ?Hd; reflexivity.
Qed.

Lemma render_shape this t :
  render this t = this \/ exists w, render this t = set_vertices this w.
Proof.
  unfold render.
  destruct (animationMode this) as [|p|p]; [ right; eexists; reflexivity | | now left ].
  do 5 (try destruct p as [p|p|]);
    first [ now left | right; eexists; reflexivity ].
Qed.

Lemma render_members this t :
  animationMode (render this t) = animationMode this /\
  qualityLevel (render this t) = qualityLevel this /\
  centralMass (render this t) = centralMass this /\
  maxDeformation (render this t) = maxDeformation this.
Proof.
  destruct (render_shape this t) as [-> | [w ->]]; repeat split; reflexivity.
Qed.

End Frame.

(** ** Determinism *)

Section Determinism.
Context {F : Type} {FA : FloatArith F} {FM : FloatMath F}.
Implicit Types (this a b : MathAnimation F) (v : list F) (t m : F).
Local Open Scope flt_scope.

Lemma generateLorenzAttractor_first this v t (d : F) :
  nth 0 (generateLorenzAttractor this v t) d =
  ($0.1 + ($10.0 + $5.0 * fsin (t * $0.3)) * ($0.0 - $0.1) * $0.005) * $0.1.
Proof.
  unfold generateLorenzAttractor. cbv zeta.
  destruct (range_head (5000 * getQualityMultiplier (qualityLevel this))) as [tl ->].
  { pose proof (getQualityMultiplier_pos (qualityLevel this)). lia. }
  rewrite for_each_cons. unfold lorenz_step at 2. cbv beta iota zeta.
  match goal with
  | |- context [for_each tl (lorenz_step ?s ?r ?b ?h ?u) (?v', ?p')] =>
      destruct (lorenz_loop_prefix s r b h u tl v' p') as [w [Hw _]]; rewrite Hw
  end.
  reflexivity.
Qed.

(** C1.  Determinism of the generation call.  For every mode 0..15, time,
    quality level and central mass: two objects, whatever their vectors
    and other members hold, produce the same vertex stream (they need only
    share the deformation constant, which no operation assigns); so does
    a second call on the object the first call left behind; and the
    Lorenz stream (mode 7) always starts with the Euler step taken from the
    seed point (0.1, 0, 0). *)
Theorem generate_deterministic (mode : Z) t (q : Z) m a b :
  (0 <= mode <= 15)%Z ->
  maxDeformation a = maxDeformation b ->
  generate mode t q m a = generate mode t q m b /\
  generate mode t q m
    (render (set_centralMass (set_qualityLevel (set_animationMode a mode) q) m) t)
    = generate mode t q m a /\
  (forall d : F, nth 0 (generate 7 t q m a) d =
     ($0.1 + ($10.0 + $5.0 * fsin (t * $0.3)) * ($0.0 - $0.1) * $0.005) * $0.1).
Proof.
  intros Hr Hd.
  assert (Hframe : forall x y : MathAnimation F,
             maxDeformation x = maxDeformation y ->
             generate mode t q m x = generate mode t q m y).
  { intros x y Hxy. unfold generate. cbv zeta.
    apply render_vertices_frame; [ exact Hr | reflexivity .. | exact Hxy ]. }
  split; [ now apply Hframe | split ].
  - apply Hframe.
    destruct (render_members
      (set_centralMass (set_qualityLevel (set_animationMode a mode) q) m) t)
      as (_ & _ & _ & ->).
    reflexivity.
  - intros d. unfold generate. cbv zeta. unfold render.
    cbn [animationMode set_centralMass set_qualityLevel set_animationMode].
    cbv beta iota. cbn [vertices set_vertices].
    apply generateLorenzAttractor_first.
Qed.

(** The curvature generator reads the central mass and the deformation
    constant, and nothing else: not the quality level, not the previous
    vector, and not its time argument. *)
Lemma generateGravitationalSpacetime_frame a b v w t u :
  centralMass a = centralMass b ->
  maxDeformation a = maxDeformation b ->
  generateGravitationalSpacetime a v t = generateGravitationalSpacetime b w u.
Proof.
  intros Hc Hd. unfold generateGravitationalSpacetime, clear.
  rewrite Hc, Hd. reflexivity.
Qed.

(** C7.  Mode 15 ignores the quality level: for any two levels, and the
    same time and central mass, the streams are equal; the stream always
    holds the 80 x 80 surface vertices followed by 15 line sets of 27 + 27
    vertices (every third of 80 rows and columns). *)
Theorem gravitational_quality_independent t m this (q1 q2 : Z) :
  generate 15 t q1 m this = generate 15 t q2 m this /\
  length (generate 15 t q1 m this) = (6 * (80 * 80 + 15 * (27 + 27)))%nat /\
  range_by 80 3 =
    [0; 3; 6; 9; 12; 15; 18; 21; 24; 27; 30; 33; 36; 39; 42; 45; 48; 51; 54;
     57; 60; 63; 66; 69; 72; 75; 78]%Z.
Proof.
  split; [ | split ].
  - unfold generate. cbv zeta. unfold render.
    cbn [animationMode set_centralMass set_qualityLevel set_animationMode].
    cbv beta iota. cbn [vertices set_vertices].
    apply generateGravitationalSpacetime_frame; reflexivity.
  - unfold generate. cbv zeta. unfold render.
    cbn [animationMode set_centralMass set_qualityLevel set_animationMode].
    cbv beta iota. cbn [vertices set_vertices].
    apply generateGravitationalSpacetime_length.
  - reflexivity.
Qed.

End Determinism.

Lemma generate_deterministic_witness :
  generate 7 0%R 3 (1 / 2)%R RealModel.zero_storage =
  generate 7 0%R 3 (1 / 2)%R (MathAnimation_ctor RealModel.zero_storage).
Proof.
  refine (proj1 (generate_deterministic 7 0%R 3 (1 / 2)%R
                   RealModel.zero_storage (MathAnimation_ctor RealModel.zero_storage)
                   _ _));
    [ lia | reflexivity ].
Defined.

(** ** The quality policy *)

(** C3.  The multiplier table: levels 0, 1, 2, 3 give 1, 2, 4, 8; every
    other level gives 4, the High multiplier; and over 0..3 the multiplier
    increases with the level. *)
Theorem quality_multiplier_table :
  getQualityMultiplier 0 = 1 /\ getQualityMultiplier 1 = 2 /\
  getQualityMultiplier 2 = 4 /\ getQualityMultiplier 3 = 8 /\
  (forall level, level < 0 \/ 3 < level -> getQualityMultiplier level = 4) /\
  (forall l1 l2, 0 <= l1 -> l1 < l2 -> l2 <= 3 ->
     getQualityMultiplier l1 < getQualityMultiplier l2).
Proof.
  repeat split.
  - intros level Hl. unfold getQualityMultiplier.
    destruct level as [|p|p]; [ lia | | reflexivity ].
    destruct p as [[p|p|]|[p|p|]|]; try reflexivity; lia.
  - intros l1 l2 H0 H12 H3.
    assert (H : (l1 = 0 \/ l1 = 1 \/ l1 = 2) /\ (l2 = 1 \/ l2 = 2 \/ l2 = 3)) by lia.
    destruct H as [[-> | [-> | ->]] [-> | [-> | ->]]]; simpl; lia.
Qed.

Lemma quality_multiplier_table_witness :
  getQualityMultiplier 7 = 4 /\
  getQualityMultiplier 1 < getQualityMultiplier 3.
Proof.
  destruct quality_multiplier_table as (_ & _ & _ & _ & Hout & Hmono).
  split.
  - apply Hout. right. lia.
  - apply Hmono; lia.
Defined.

(** ** The mass controls *)

Section Mass.
Context {F : Type} {FA : FloatArith F}.
Implicit Types (this : MathAnimation F).
Local Open Scope flt_scope.

Lemma increaseMass_centralMass this :
  centralMass (increaseMass this) =
  if $5.0 <? centralMass this + $0.2 then $5.0 else centralMass this + $0.2.
Proof. reflexivity. Qed.

Lemma decreaseMass_centralMass this :
  centralMass (decreaseMass this) =
  if centralMass this - $0.2 <? $0.1 then $0.1 else centralMass this - $0.2.
Proof. reflexivity. Qed.

(** Repeated calls act on the central mass alone. *)
Lemma iter_increaseMass_centralMass (n : nat) this that :
  centralMass this = centralMass that ->
  centralMass (Nat.iter n increaseMass this) = centralMass (Nat.iter n increaseMass that).
Proof.
  intros H. induction n as [|n IH]; [ exact H | ].
  rewrite !Nat.iter_succ, !increaseMass_centralMass, IH. reflexivity.
Qed.

Lemma iter_decreaseMass_centralMass (n : nat) this that :
  centralMass this = centralMass that ->
  centralMass (Nat.iter n decreaseMass this) = centralMass (Nat.iter n decreaseMass that).
Proof.
  intros H. induction n as [|n IH]; [ exact H | ].
  rewrite !Nat.iter_succ, !decreaseMass_centralMass, IH. reflexivity.
Qed.

(** Once a call returns the mass it was given, every later call does. *)
Lemma iter_fixed (f : MathAnimation F -> MathAnimation F) (c : F) (k n : nat) this :
  (forall that, centralMass that = c -> centralMass (f that) = c) ->
  centralMass (Nat.iter k f this) = c ->
  (k <= n)%nat ->
  centralMass (Nat.iter n f this) = c.
Proof.
  intros Hfix Hk Hle. induction Hle as [|n Hle IH]; [ exact Hk | ].
  rewrite Nat.iter_succ. apply Hfix. exact IH.
Qed.

End Mass.

(** C4, on IEEE binary32, the type of [centralMass].  [increaseMass] adds
    0.2f and replaces a result above 5.0f by 5.0f, so the mass never
    exceeds 5.0f; [decreaseMass] subtracts 0.2f and replaces a result below
    0.1f by 0.1f.  From 0.5f the 23rd [increaseMass] reaches exactly 5.0f
    (the mass is below it before) and every later call leaves it there;
    [decreaseMass] reaches exactly 0.1f with the third call and stays. *)
Theorem mass_controls_binary32 (this : MathAnimation F32.f32) :
  (centralMass (increaseMass this) =
     (if fltb (flit 5.0) (fadd (centralMass this) (flit 0.2))
      then flit 5.0 else fadd (centralMass this) (flit 0.2)) /\
   fltb (flit 5.0) (centralMass (increaseMass this)) = false) /\
  (centralMass (decreaseMass this) =
     (if fltb (fsub (centralMass this) (flit 0.2)) (flit 0.1)
      then flit 0.1 else fsub (centralMass this) (flit 0.2)) /\
   fltb (centralMass (decreaseMass this)) (flit 0.1) = false) /\
  (centralMass this = flit 0.5 ->
   centralMass (Nat.iter 23 increaseMass this) = flit 5.0 /\
   (forall n, (n < 23)%nat ->
      fltb (centralMass (Nat.iter n increaseMass this)) (flit 5.0) = true) /\
   (forall n, (23 <= n)%nat ->
      centralMass (Nat.iter n increaseMass this) = flit 5.0) /\
   (forall n, (3 <= n)%nat ->
      centralMass (Nat.iter n decreaseMass this) = flit 0.1)).
Proof.
  split; [ | split ].
  - split; [ reflexivity | ].
    rewrite increaseMass_centralMass.
    destruct (fltb (flit 5.0) (fadd (centralMass this) (flit 0.2))) eqn:E.
    + reflexivity.
    + exact E.
  - split; [ reflexivity | ].
    rewrite decreaseMass_centralMass.
    destruct (fltb (fsub (centralMass this) (flit 0.2)) (flit 0.1)) eqn:E.
    + reflexivity.
    + exact E.
  - intros H0.
    assert (Hinc : forall n, centralMass (Nat.iter n increaseMass this) =
                             centralMass (Nat.iter n increaseMass (F32.with_mass (flit 0.5)))).
    { intros n. apply iter_increaseMass_centralMass. exact H0. }
    assert (Hdec : forall n, centralMass (Nat.iter n decreaseMass this) =
                             centralMass (Nat.iter n decreaseMass (F32.with_mass (flit 0.5)))).
    { intros n. apply iter_decreaseMass_centralMass. exact H0. }
    assert (H23 : centralMass (Nat.iter 23 increaseMass this) = flit 5.0).
    { rewrite Hinc. vm_compute. reflexivity. }
    split; [ exact H23 | split; [ | split ] ].
    + intros n Hn. rewrite Hinc.
      assert (Hall : forallb (fun k =>
                 fltb (centralMass (Nat.iter k increaseMass (F32.with_mass (flit 0.5))))
                      (flit 5.0)) (seq 0 23) = true) by (vm_compute; reflexivity).
      rewrite forallb_forall in Hall. apply Hall. apply in_seq. lia.
    + intros n Hn. apply iter_fixed with (k := 23%nat); [ | exact H23 | exact Hn ].
      intros that Ht. rewrite increaseMass_centralMass, Ht. vm_compute. reflexivity.
    + intros n Hn. apply iter_fixed with (k := 3%nat); [ | | exact Hn ].
      * intros that Ht. rewrite decreaseMass_centralMass, Ht. vm_compute. reflexivity.
      * rewrite Hdec. vm_compute. reflexivity.
Qed.

Lemma mass_controls_binary32_witness :
  centralMass (Nat.iter 23 increaseMass (F32.with_mass (flit 0.5))) = flit 5.0 /\
  centralMass (Nat.iter 3 decreaseMass (F32.with_mass (flit 0.5))) = flit 0.1.
Proof.
  destruct (mass_controls_binary32 (F32.with_mass (flit 0.5))) as (_ & _ & H).
  destruct (H eq_refl) as (H23 & _ & _ & Hdec).
  split; [ exact H23 | apply Hdec; lia ].
Defined.

(** The same controls on real numbers: the mass grows by 1/5 per call
    while it stays within 5, the 23rd call passes 5 and is clamped, and two
    subtractions reach 1/10. *)
Lemma increaseMass_real (this : MathAnimation R) :
  centralMass (increaseMass this) = Rmin 5 (centralMass this + 1 / 5).
Proof.
  rewrite increaseMass_centralMass.
  cbn [flit fadd fltb RealModel.arith]. unfold RealModel.ltb, Q2R, Rmin. cbn [Qnum Qden].
  destruct (Rlt_dec _ _), (Rle_dec _ _); lra.
Qed.

Lemma decreaseMass_real (this : MathAnimation R) :
  centralMass (decreaseMass this) = Rmax (1 / 10) (centralMass this - 1 / 5).
Proof.
  rewrite decreaseMass_centralMass.
  cbn [flit fsub fltb RealModel.arith]. unfold RealModel.ltb, Q2R, Rmax. cbn [Qnum Qden].
  destruct (Rlt_dec _ _), (Rle_dec _ _); lra.
Qed.

Lemma mass_controls_real (this : MathAnimation R) :
  centralMass this = (1 / 2)%R ->
  (forall k, (k <= 22)%nat ->
     centralMass (Nat.iter k increaseMass this) = (1 / 2 + INR k / 5)%R) /\
  centralMass (Nat.iter 23 increaseMass this) = 5%R /\
  centralMass (Nat.iter 2 decreaseMass this) = (1 / 10)%R.
Proof.
  intros H0.
  assert (Hk : forall k, (k <= 22)%nat ->
             centralMass (Nat.iter k increaseMass this) = (1 / 2 + INR k / 5)%R).
  { induction k as [|k IH]; intros Hle.
    - simpl. rewrite H0. lra.
    - rewrite Nat.iter_succ, increaseMass_real, IH by lia.
      rewrite S_INR. apply le_INR in Hle. rewrite S_INR in Hle. simpl in Hle.
      unfold Rmin. destruct (Rle_dec _ _); lra. }
  split; [ exact Hk | split ].
  - rewrite Nat.iter_succ, increaseMass_real, Hk by lia.
    simpl INR. unfold Rmin. destruct (Rle_dec _ _); lra.
  - rewrite !Nat.iter_succ. simpl Nat.iter.
    rewrite !decreaseMass_real, H0.
    unfold Rmax. repeat (destruct (Rle_dec _ _); try lra).
Qed.

(** ** The constructor *)

(** C8.  The constructor never assigns [centralMass]: a fresh object holds
    whatever its storage held (0 in zeroed storage, not 0.5), and only the
    reset key K stores 0.5 into it. *)
Theorem ctor_leaves_centralMass_unset :
  (forall (F : Type) (FA : FloatArith F) (storage : MathAnimation F),
     centralMass (MathAnimation_ctor storage) = centralMass storage) /\
  centralMass (MathAnimation_ctor F32.zero_storage) = S754_zero false /\
  centralMass (MathAnimation_ctor F32.zero_storage) <> flit 0.5 /\
  (forall (F : Type) (FA : FloatArith F) (FM : FloatMath F) (app : MathAnimation F),
     centralMass (keyCallback app KEY_K) = flit 0.5).
Proof.
  repeat split.
  vm_compute. discriminate.
Qed.

(** ** The gyroid's grid *)

Lemma flat_map_nest {A B C : Type} (f : B -> list C) (g : A -> list B) (l : list A) :
  flat_map f (flat_map g l) = flat_map (fun a => flat_map f (g a)) l.
Proof.
  induction l as [|a l IH]; simpl; [ reflexivity | ].
  now rewrite flat_map_app, IH.
Qed.

Lemma flat_map_of_map {A B C : Type} (f : B -> list C) (g : A -> B) (l : list A) :
  flat_map f (map g l) = flat_map (fun a => f (g a)) l.
Proof.
  induction l as [|a l IH]; simpl; [ reflexivity | now rewrite IH ].
Qed.

Lemma grid_cells_length (n : Z) :
  0 <= n -> Z.of_nat (length (grid_cells n)) = n * n * n.
Proof.
  intros Hn. unfold grid_cells.
  rewrite flat_map_length_const with (k := (Z.to_nat n * Z.to_nat n)%nat).
  - rewrite range_length. lia.
  - intros i. rewrite flat_map_length_const with (k := Z.to_nat n).
    + now rewrite range_length.
    + intros j. now rewrite length_map, range_length.
Qed.

Lemma grid_cells_In (n i j k : Z) :
  0 <= i < n -> 0 <= j < n -> 0 <= k < n -> In (i, j, k) (grid_cells n).
Proof.
  intros Hi Hj Hk. unfold grid_cells.
  apply in_flat_map. exists i. split; [ now apply range_In | ].
  apply in_flat_map. exists j. split; [ now apply range_In | ].
  apply in_map. now apply range_In.
Qed.

Lemma of_nat_count1 (a : Z) : 0 <= a -> Z.of_nat (6 * Z.to_nat a) = 6 * a.
Proof. lia. Qed.

Lemma of_nat_count2 (a b : Z) :
  Z.of_nat (6 * (Z.to_nat a * Z.to_nat b)) = 6 * (Z.max 0 a * Z.max 0 b).
Proof. rewrite !Nat2Z.inj_mul. f_equal. f_equal; lia. Qed.

Section Gyroid.
Context {F : Type} {FA : FloatArith F} {FM : FloatMath F}.
Implicit Types (this : MathAnimation F) (v : list F) (t : F).

Lemma gyroid_finalGrid_cases this :
  gyroid_finalGrid this = 50 \/ gyroid_finalGrid this = 100 \/
  gyroid_finalGrid this = 120.
Proof.
  unfold gyroid_finalGrid. cbv zeta.
  destruct (getQualityMultiplier_cases (qualityLevel this)) as [H|[H|[H|H]]];
    rewrite H; vm_compute; auto.
Qed.

(** The generator tests exactly the cells of the cubic grid, in loop
    order, and emits the ones that pass. *)
Lemma generateGyroid_cells this v t :
  generateGyroid this v t =
  flat_map (fun '(i, j, k) =>
              gyroid_voxel (gyroid_finalGrid this) (gyroid_level t) t i j k [])
           (grid_cells (gyroid_finalGrid this)).
Proof.
  unfold generateGyroid, grid_cells. cbv zeta. unfold clear.
  rewrite for_each_appends by appends_tac. simpl app.
  rewrite flat_map_nest. apply flat_map_ext. intros i.
  rewrite for_each_appends by appends_tac. simpl app.
  rewrite flat_map_nest. apply flat_map_ext. intros j.
  rewrite for_each_appends by appends_tac. simpl app.
  rewrite flat_map_of_map. reflexivity.
Qed.

Lemma gyroid_voxel_length (G : Z) (level t : F) (i j k : Z) :
  (length (gyroid_voxel G level t i j k []) <= 6)%nat.
Proof.
  unfold gyroid_voxel. cbv zeta. destruct (fltb _ _); simpl; lia.
Qed.

(** C5.  The gyroid tests the cells of a cubic grid whose side is
    min(50 * multiplier, 120): its stream is the concatenation, over the
    side^3 cells in loop order, of what each cell emits.  At Ultra quality
    (multiplier 8) the grid has exactly 120^3 cells, and at no quality
    level more.  No other generator caps its loop bounds: their vertex
    counts are the plain products of the multiplier (or of the integer
    part of base * sqrt(multiplier)), or constants. *)
Theorem gyroid_grid_cap this v t :
  let side := gyroid_finalGrid this in
  let mult := getQualityMultiplier (qualityLevel this) in
  side = Z.min (50 * mult) 120 /\
  generateGyroid this v t =
    flat_map (fun '(i, j, k) => gyroid_voxel side (gyroid_level t) t i j k [])
             (grid_cells side) /\
  Z.of_nat (length (grid_cells side)) = side * side * side /\
  side * side * side <= 120 * 120 * 120 /\
  Z.of_nat (length (generateGyroid this v t)) <= 6 * (side * side * side) /\
  (qualityLevel this = 3 ->
     mult = 8 /\ Z.of_nat (length (grid_cells side)) = 120 * 120 * 120) /\
  (Z.of_nat (length (generateParametricSpiral this v t)) = 6 * (1000 * mult) /\
   Z.of_nat (length (generateLissajous this v t)) = 6 * (2000 * mult) /\
   Z.of_nat (length (generate3DHelix this v t)) = 6 * (1500 * mult) /\
   Z.of_nat (length (generateTorus this v t)) = 6 * ((60 * mult) * (40 * mult)) /\
   Z.of_nat (length (generateHypotrochoid this v t)) = 6 * (2000 * mult) /\
   Z.of_nat (length (generateSuperformula this v t)) = 6 * (1000 * mult) /\
   Z.of_nat (length (generateLorenzAttractor this v t)) = 6 * (5000 * mult) /\
   Z.of_nat (length (generateKleinBottle this v t)) = 6 * ((100 * mult) * (50 * mult)) /\
   Z.of_nat (length (generateSphericalHarmonic this v t)) =
     6 * ((40 * mult + 1) * (80 * mult + 1)) /\
   Z.of_nat (length (generatePhyllotaxis this v t)) = 6 * (1000 * mult) /\
   Z.of_nat (length (generateSineWaveSurface this v t)) =
     6 * (Z.max 0 (sqrt_side 80 this) * Z.max 0 (sqrt_side 80 this)) /\
   Z.of_nat (length (generateFractalZoom this v t)) =
     6 * (Z.max 0 (sqrt_side 200 this) * Z.max 0 (sqrt_side 200 this)) /\
   Z.of_nat (length (generateWaveInterference this v t)) =
     6 * (Z.max 0 (sqrt_side 100 this) * Z.max 0 (sqrt_side 100 this)) /\
   Z.of_nat (length (generateTesseract4D this v t)) = 6 * 16 /\
   Z.of_nat (length (generateGravitationalSpacetime this v t)) =
     6 * (80 * 80 + 15 * (27 + 27))).
Proof.
  intros side mult.
  pose proof (getQualityMultiplier_pos (qualityLevel this)) as Hpos.
  fold mult in Hpos.
  assert (Hside : side = Z.min (50 * mult) 120) by reflexivity.
  assert (Hlen : Z.of_nat (length (grid_cells side)) = side * side * side).
  { apply grid_cells_length. lia. }
  assert (Hcap : side * side * side <= 120 * 120 * 120).
  { destruct (gyroid_finalGrid_cases this) as [H|[H|H]]; fold side in H; rewrite H; lia. }
  split; [ exact Hside | ].
  split; [ apply generateGyroid_cells | ].
  split; [ exact Hlen | ].
  split; [ exact Hcap | ].
  split.
  { rewrite generateGyroid_cells. fold side.
    assert (Hb : forall l : list (Z * Z * Z),
               (length (flat_map (fun '(i, j, k) =>
                  gyroid_voxel side (gyroid_level t) t i j k []) l) <= 6 * length l)%nat).
    { induction l as [|[[i j] k] l IH]; simpl; [ lia | ].
      rewrite length_app. pose proof (gyroid_voxel_length side (gyroid_level t) t i j k). lia. }
    specialize (Hb (grid_cells side)). lia. }
  split.
  { intros Hq. assert (Hm : mult = 8) by (unfold mult; now rewrite Hq).
    split; [ exact Hm | ]. rewrite Hlen, Hside, Hm. reflexivity. }
  rewrite generateParametricSpiral_length, generateLissajous_length,
    generate3DHelix_length, generateTorus_length, generateHypotrochoid_length,
    generateSuperformula_length, generateLorenzAttractor_length,
    generateKleinBottle_length, generateSphericalHarmonic_length,
    generatePhyllotaxis_length, generateSineWaveSurface_length,
    generateFractalZoom_length, generateWaveInterference_length,
    generateTesseract4D_length, generateGravitationalSpacetime_length.
  fold mult. clearbody mult. clear - Hpos.
  rewrite !of_nat_count1 by lia.
  rewrite !of_nat_count2.
  rewrite !(Z.max_r 0 (60 * mult)), !(Z.max_r 0 (40 * mult)),
    !(Z.max_r 0 (100 * mult)), !(Z.max_r 0 (50 * mult)),
    !(Z.max_r 0 (40 * mult + 1)), !(Z.max_r 0 (80 * mult + 1)) by lia.
  do 14 (split; [ lia | ]). lia.
Qed.

End Gyroid.

Lemma gyroid_grid_cap_witness :
  getQualityMultiplier (qualityLevel (set_qualityLevel RealModel.zero_storage 3)) = 8 /\
  Z.of_nat (length (grid_cells
    (gyroid_finalGrid (set_qualityLevel RealModel.zero_storage 3)))) = 120 * 120 * 120.
Proof.
  pose proof (gyroid_grid_cap (set_qualityLevel RealModel.zero_storage 3) [] 0%R) as H.
  cbv zeta in H.
  destruct H as (_ & _ & _ & _ & _ & H & _).
  apply H. reflexivity.
Defined.

(** ** The real-number model: basic facts *)

Module RealFacts.
Import RealModel.
Local Open Scope R_scope.

(** Rewrites the interface operations into the operations of [R]. *)
Ltac real_ops :=
  cbn [flit of_int fneg fadd fsub fmul fdiv fltb
       M_PI fsin fcos facos fsqrt fexp ffabs fpow ffmod ffmin to_int
       RealModel.arith RealModel.math] in *.

Ltac real_lits := unfold Q2R in *; cbn [Qnum Qden] in *.

Lemma ltb_true (x y : R) : x < y -> ltb x y = true.
Proof. intros H. unfold ltb. destruct (Rlt_dec x y); [ reflexivity | contradiction ]. Qed.

Lemma ltb_false (x y : R) : y <= x -> ltb x y = false.
Proof. intros H. unfold ltb. destruct (Rlt_dec x y); [ lra | reflexivity ]. Qed.

Lemma Rabs_bound (x y : R) : Rabs x <= y -> - y <= x <= y.
Proof. unfold Rabs. destruct (Rcase_abs x); lra. Qed.

Lemma PI_bounds : 3 < PI <= 4.
Proof. split; [ pose proof PI2_3_2; lra | exact PI_4 ]. Qed.

Lemma trunc_IZR (z : Z) : (0 <= z)%Z -> trunc (IZR z) = z.
Proof.
  intros Hz. unfold trunc.
  destruct (Rle_dec 0 (IZR z)) as [_|Hn].
  - symmetry. apply Int_part_spec. lra.
  - exfalso. apply Hn. now apply IZR_le.
Qed.

(** The integer part of [b * sqrt a], from the squares around it. *)
Lemma trunc_mul_sqrt (b a k : Z) :
  (0 <= b)%Z -> (0 <= a)%Z -> (0 <= k)%Z ->
  (k * k <= b * b * a < (k + 1) * (k + 1))%Z ->
  trunc (IZR b * sqrt (IZR a)) = k.
Proof.
  intros Hb Ha Hk [Hlo Hhi].
  assert (Hb' : 0 <= IZR b) by now apply IZR_le.
  assert (Ha' : 0 <= IZR a) by now apply IZR_le.
  assert (Hk' : 0 <= IZR k) by now apply IZR_le.
  assert (E : IZR b * sqrt (IZR a) = sqrt (IZR (b * b * a))).
  { rewrite !mult_IZR, sqrt_mult, sqrt_square; try lra; nra. }
  assert (Ek : IZR k = sqrt (IZR (k * k))).
  { rewrite mult_IZR, sqrt_square; lra. }
  assert (Ek1 : IZR k + 1 = sqrt (IZR ((k + 1) * (k + 1)))).
  { rewrite mult_IZR, plus_IZR, sqrt_square; lra. }
  assert (L1 : IZR k <= IZR b * sqrt (IZR a)).
  { rewrite E, Ek. apply sqrt_le_1_alt. now apply IZR_le. }
  assert (L2 : IZR b * sqrt (IZR a) < IZR k + 1).
  { rewrite E, Ek1. apply sqrt_lt_1_alt. split.
    - apply IZR_le. nia.
    - now apply IZR_lt. }
  unfold trunc. destruct (Rle_dec 0 (IZR b * sqrt (IZR a))) as [_|Hn]; [ | lra ].
  symmetry. apply Int_part_spec. lra.
Qed.

(** The sides of the three square-grid modes at the four multipliers. *)
Lemma sqrt_side_80 (this : MathAnimation R) :
  let mult := getQualityMultiplier (qualityLevel this) in
  sqrt_side 80 this =
    (if mult =? 1 then 80 else if mult =? 2 then 113 else if mult =? 4 then 160 else 226)%Z.
Proof.
  intros mult. unfold sqrt_side. fold mult. real_ops.
  destruct (getQualityMultiplier_cases (qualityLevel this)) as [H|[H|[H|H]]];
    fold mult in H; rewrite H; cbn [Z.eqb Pos.eqb]; apply trunc_mul_sqrt; lia.
Qed.

Lemma sqrt_side_200 (this : MathAnimation R) :
  let mult := getQualityMultiplier (qualityLevel this) in
  sqrt_side 200 this =
    (if mult =? 1 then 200 else if mult =? 2 then 282 else if mult =? 4 then 400 else 565)%Z.
Proof.
  intros mult. unfold sqrt_side. fold mult. real_ops.
  destruct (getQualityMultiplier_cases (qualityLevel this)) as [H|[H|[H|H]]];
    fold mult in H; rewrite H; cbn [Z.eqb Pos.eqb]; apply trunc_mul_sqrt; lia.
Qed.

Lemma sqrt_side_100 (this : MathAnimation R) :
  let mult := getQualityMultiplier (qualityLevel this) in
  sqrt_side 100 this =
    (if mult =? 1 then 100 else if mult =? 2 then 141 else if mult =? 4 then 200 else 282)%Z.
Proof.
  intros mult. unfold sqrt_side. fold mult. real_ops.
  destruct (getQualityMultiplier_cases (qualityLevel this)) as [H|[H|[H|H]]];
    fold mult in H; rewrite H; cbn [Z.eqb Pos.eqb]; apply trunc_mul_sqrt; lia.
Qed.

Lemma sqrt_side_pos (base : Z) (this : MathAnimation R) :
  base = 80%Z \/ base = 200%Z \/ base = 100%Z -> (0 < sqrt_side base this)%Z.
Proof.
  intros [-> | [-> | ->]];
    [ rewrite sqrt_side_80 | rewrite sqrt_side_200 | rewrite sqrt_side_100 ];
    cbv zeta;
    repeat match goal with |- context [if ?c then _ else _] => destruct c end; lia.
Qed.

(** *** The sine moves no faster than its argument *)

Lemma sin_abs_le (x : R) : 0 <= x -> Rabs (sin x) <= x.
Proof.
  intros [Hx | <-].
  - apply Rabs_le. split.
    + pose proof (sin_lt_x x Hx).
      destruct (Rle_dec x 1) as [H1|H1].
      * assert (0 <= sin x); [ | lra ].
        apply sin_ge_0; [ lra | pose proof PI_bounds; lra ].
      * pose proof (SIN_bound x). lra.
    + pose proof (sin_lt_x x Hx). lra.
  - rewrite sin_0, Rabs_R0. lra.
Qed.

Lemma sin_step (a b : R) : a <= b -> Rabs (sin b - sin a) <= b - a.
Proof.
  intros Hab. rewrite form4.
  rewrite !Rabs_mult, (Rabs_pos_eq 2) by lra.
  pose proof (COS_bound ((b + a) / 2)) as Hc.
  assert (Hc' : Rabs (cos ((b + a) / 2)) <= 1) by (apply Rabs_le; lra).
  assert (Hs : Rabs (sin ((b - a) / 2)) <= (b - a) / 2) by (apply sin_abs_le; lra).
  pose proof (Rabs_pos (cos ((b + a) / 2))).
  pose proof (Rabs_pos (sin ((b - a) / 2))).
  nra.
Qed.

(** A sequence with steps of at most [δ] comes within [δ / 2] of every
    level between its ends. *)
Lemma discrete_ivt (f : nat -> R) (δ L : R) (n : nat) :
  0 <= δ ->
  (forall k, (k < n)%nat -> Rabs (f (S k) - f k) <= δ) ->
  f 0%nat <= L <= f n ->
  exists k, (k <= n)%nat /\ Rabs (f k - L) <= δ / 2.
Proof.
  intros Hδ. induction n as [|n IH]; intros Hstep [Hlo Hhi].
  - exists 0%nat. split; [ lia | ]. apply Rabs_le. lra.
  - destruct (Rle_dec L (f n)) as [Hn|Hn].
    + destruct IH as [k [Hk Hd]]; [ intros k Hk; apply Hstep; lia | lra | ].
      exists k. split; [ lia | exact Hd ].
    + assert (Hs : Rabs (f (S n) - f n) <= δ) by (apply Hstep; lia).
      apply Rabs_bound in Hs.
      destruct (Rle_dec (L - f n) (δ / 2)) as [Hc|Hc].
      * exists n. split; [ lia | ]. apply Rabs_le. lra.
      * exists (S n). split; [ lia | ]. apply Rabs_le. lra.
Qed.

(** *** The gyroid always finds a cell *)

Lemma Q2R_half : Q2R 0.5 = 1 / 2.
Proof. real_lits. lra. Qed.

Lemma Q2R_four : Q2R 4.0 = 4.
Proof. real_lits. lra. Qed.

Lemma Q2R_twentieth : Q2R 0.05 = 1 / 20.
Proof. real_lits. lra. Qed.

Lemma gyroid_level_bound (t : R) : -1 / 2 <= gyroid_level t <= 1 / 2.
Proof.
  unfold gyroid_level. real_ops. rewrite Q2R_half.
  pose proof (SIN_bound (t * Q2R 0.6)). lra.
Qed.

Lemma sin_two_thirds (x : R) : 2 / 3 <= x <= 3 / 2 -> 1 / 2 <= sin x.
Proof.
  intros [Hlo Hhi]. pose proof PI_bounds as [HP1 HP2].
  rewrite <- sin_PI6. apply sin_incr_1; lra.
Qed.

(** Along one grid line the coordinate [(i / G - 1/2) * 4] advances by
    [4 / G]; when that step is at most 0.08 and the line spans
    [-2/3, 2/3], some index brings the sine within 0.05 of any level in
    [-1/2, 1/2]. *)
Lemma gyroid_level_near (G lo hi : Z) (L : R) :
  (0 < G)%Z -> (lo <= hi)%Z ->
  4 / IZR G <= 2 / 25 ->
  -3 / 2 <= (IZR lo / IZR G - 1 / 2) * 4 <= -2 / 3 ->
  2 / 3 <= (IZR hi / IZR G - 1 / 2) * 4 <= 3 / 2 ->
  -1 / 2 <= L <= 1 / 2 ->
  exists i, (lo <= i <= hi)%Z /\
            Rabs (sin ((IZR i / IZR G - 1 / 2) * 4) - L) < 1 / 20.
Proof.
  intros HG Hlh Hstep Hlo Hhi HL.
  assert (HG' : 0 < IZR G) by now apply IZR_lt.
  set (f := fun k : nat => sin ((IZR (lo + Z.of_nat k) / IZR G - 1 / 2) * 4)).
  destruct (discrete_ivt f (2 / 25) L (Z.to_nat (hi - lo))) as [k [Hk Hd]].
  - lra.
  - intros k Hk. unfold f.
    eapply Rle_trans; [ apply sin_step | ].
    + rewrite Nat2Z.inj_succ, <- Z.add_1_r, Z.add_assoc, (plus_IZR (lo + Z.of_nat k)).
      unfold Rdiv. pose proof (Rinv_0_lt_compat _ HG'). nra.
    + rewrite Nat2Z.inj_succ, <- Z.add_1_r, Z.add_assoc, (plus_IZR (lo + Z.of_nat k)).
      unfold Rdiv in *. lra.
  - unfold f. rewrite Z2Nat.id by lia.
    replace (lo + (hi - lo))%Z with hi by lia.
    simpl Z.of_nat. rewrite Z.add_0_r. split.
    + replace ((IZR lo / IZR G - 1 / 2) * 4)
        with (- - ((IZR lo / IZR G - 1 / 2) * 4)) by lra.
      rewrite sin_neg.
      pose proof (sin_two_thirds (- ((IZR lo / IZR G - 1 / 2) * 4))). lra.
    + pose proof (sin_two_thirds _ Hhi). lra.
  - exists (lo + Z.of_nat k)%Z. split; [ lia | ]. unfold f in Hd. lra.
Qed.

(** The cell [(i, h, h)] of a grid of side [2 * h] lies on the line
    [y = z = 0], where the gyroid function is [sin x]. *)
Lemma gyroid_voxel_hit (G h i : Z) (t : R) :
  (0 < h)%Z -> G = (2 * h)%Z ->
  Rabs (sin ((IZR i / IZR G - 1 / 2) * 4) - gyroid_level t) < 1 / 20 ->
  gyroid_voxel G (gyroid_level t) t i h h [] <> [].
Proof.
  intros Hh HG Hnear.
  assert (Hh' : 0 < IZR h) by now apply IZR_lt.
  unfold gyroid_voxel. cbv zeta. real_ops.
  rewrite Q2R_half, Q2R_four, Q2R_twentieth.
  assert (Hy : (IZR h / IZR G - 1 / 2) * 4 = 0).
  { rewrite HG, mult_IZR. field. lra. }
  rewrite Hy, sin_0, cos_0.
  rewrite ltb_true.
  - unfold push_back. simpl. discriminate.
  - match goal with
    | |- Rabs ?e < _ =>
        replace e with (sin ((IZR i / IZR G - 1 / 2) * 4) - gyroid_level t) by ring
    end.
    exact Hnear.
Qed.

Lemma generateGyroid_not_nil (this : MathAnimation R) (v : list R) (t : R) :
  generateGyroid this v t <> [].
Proof.
  rewrite generateGyroid_cells.
  assert (H : exists h lo hi,
             (0 < h)%Z /\ gyroid_finalGrid this = (2 * h)%Z /\
             (0 <= lo)%Z /\ (lo <= hi)%Z /\ (hi < gyroid_finalGrid this)%Z /\
             4 / IZR (gyroid_finalGrid this) <= 2 / 25 /\
             -3 / 2 <= (IZR lo / IZR (gyroid_finalGrid this) - 1 / 2) * 4 <= -2 / 3 /\
             2 / 3 <= (IZR hi / IZR (gyroid_finalGrid this) - 1 / 2) * 4 <= 3 / 2).
  { destruct (gyroid_finalGrid_cases this) as [E|[E|E]]; rewrite E.
    - exists 25%Z, 16%Z, 34%Z. repeat split; try lia; lra.
    - exists 50%Z, 32%Z, 68%Z. repeat split; try lia; lra.
    - exists 60%Z, 39%Z, 81%Z. repeat split; try lia; lra. }
  destruct H as (h & lo & hi & Hh & HG & Hlo0 & Hlh & Hhi & Hstep & Hlo & Hhi').
  destruct (gyroid_level_near (gyroid_finalGrid this) lo hi (gyroid_level t))
    as [i [Hi Hnear]]; try assumption; try lia.
  { apply gyroid_level_bound. }
  apply flat_map_not_nil with (a := (i, h, h)).
  - apply grid_cells_In; lia.
  - apply gyroid_voxel_hit; assumption.
Qed.

End RealFacts.

(** ** Shape of the vertex stream *)

Lemma six_times_pos (len n : nat) :
  len = (6 * n)%nat -> (0 < n)%nat -> (len mod 6 = 0 /\ 0 < len)%nat.
Proof.
  intros -> Hn. split; [ | lia ].
  rewrite Nat.mul_comm. apply Nat.Div0.mod_mul.
Qed.

(** Reduces [generate k ...] at a constant mode [k] to the generator the
    switch selects. *)
Ltac enter_generator :=
  unfold generate; cbv zeta; unfold render;
  cbn [animationMode set_centralMass set_qualityLevel set_animationMode];
  cbv beta iota; cbn [vertices set_vertices].

(** C2.  In the real-number model, for every mode 0..15, every time and
    every quality level (0..3 or any other), the vertex stream is non-empty
    and its length is a multiple of 6.  For mode 9 this rests on
    [generateGyroid_not_nil]: on the grid line y = z = 0 some cell always
    passes the threshold test. *)
Theorem vertex_stream_shape (mode : Z) (t : R) (q : Z) (m : R) (this : MathAnimation R) :
  0 <= mode <= 15 ->
  (length (generate mode t q m this) mod 6 = 0)%nat /\
  (0 < length (generate mode t q m this))%nat.
Proof.
  intros Hr.
  pose proof (getQualityMultiplier_pos q) as Hq.
  set (obj := set_centralMass (set_qualityLevel (set_animationMode this mode) q) m).
  assert (Hobj : qualityLevel obj = q) by reflexivity.
  pose proof (RealFacts.sqrt_side_pos 80 obj (or_introl eq_refl)) as H80.
  pose proof (RealFacts.sqrt_side_pos 200 obj (or_intror (or_introl eq_refl))) as H200.
  pose proof (RealFacts.sqrt_side_pos 100 obj (or_intror (or_intror eq_refl))) as H100.
  destruct (mode_cases mode Hr) as
    [E|[E|[E|[E|[E|[E|[E|[E|[E|[E|[E|[E|[E|[E|[E|E]]]]]]]]]]]]]]];
    subst mode; enter_generator; fold obj.
  - eapply six_times_pos; [ apply generateParametricSpiral_length | rewrite Hobj; lia ].
  - eapply six_times_pos; [ apply generateLissajous_length | rewrite Hobj; lia ].
  - eapply six_times_pos; [ apply generate3DHelix_length | rewrite Hobj; lia ].
  - eapply six_times_pos; [ apply generateSineWaveSurface_length | ].
    apply Nat.mul_pos_pos; lia.
  - eapply six_times_pos; [ apply generateTorus_length | ].
    rewrite Hobj. apply Nat.mul_pos_pos; lia.
  - eapply six_times_pos; [ apply generateHypotrochoid_length | rewrite Hobj; lia ].
  - eapply six_times_pos; [ apply generateSuperformula_length | rewrite Hobj; lia ].
  - eapply six_times_pos; [ apply generateLorenzAttractor_length | rewrite Hobj; lia ].
  - eapply six_times_pos; [ apply generateKleinBottle_length | ].
    rewrite Hobj. apply Nat.mul_pos_pos; lia.
  - split.
    + apply Nat.Lcm0.mod_divide. apply generateGyroid_length_divide.
    + pose proof (RealFacts.generateGyroid_not_nil obj (vertices obj) t) as Hne.
      destruct (generateGyroid obj (vertices obj) t); [ contradiction | simpl; lia ].
  - eapply six_times_pos; [ apply generateSphericalHarmonic_length | ].
    rewrite Hobj. apply Nat.mul_pos_pos; lia.
  - eapply six_times_pos; [ apply generateFractalZoom_length | ].
    apply Nat.mul_pos_pos; lia.
  - eapply six_times_pos; [ apply generatePhyllotaxis_length | rewrite Hobj; lia ].
  - eapply six_times_pos; [ apply generateTesseract4D_length | lia ].
  - eapply six_times_pos; [ apply generateWaveInterference_length | ].
    apply Nat.mul_pos_pos; lia.
  - eapply six_times_pos; [ apply generateGravitationalSpacetime_length | lia ].
Qed.

Lemma vertex_stream_shape_witness :
  (length (generate 9 0%R 3 (1 / 2)%R RealModel.zero_storage) mod 6 = 0)%nat /\
  (0 < length (generate 9 0%R 3 (1 / 2)%R RealModel.zero_storage))%nat.
Proof. apply vertex_stream_shape. lia. Defined.

(** ** The tesseract *)

Section TesseractPoints.
Context {F : Type} {FA : FloatArith F} {FM : FloatMath F}.
Local Open Scope flt_scope.

(** The sixteen corners, in the order the first loop builds them. *)
Lemma tesseract_pts4_eq :
  tesseract_pts4 (F := F) =
  [ ($(-1.0), $(-1.0), $(-1.0), $(-1.0)); ($1.0, $(-1.0), $(-1.0), $(-1.0));
    ($(-1.0), $1.0, $(-1.0), $(-1.0));    ($1.0, $1.0, $(-1.0), $(-1.0));
    ($(-1.0), $(-1.0), $1.0, $(-1.0));    ($1.0, $(-1.0), $1.0, $(-1.0));
    ($(-1.0), $1.0, $1.0, $(-1.0));       ($1.0, $1.0, $1.0, $(-1.0));
    ($(-1.0), $(-1.0), $(-1.0), $1.0);    ($1.0, $(-1.0), $(-1.0), $1.0);
    ($(-1.0), $1.0, $(-1.0), $1.0);       ($1.0, $1.0, $(-1.0), $1.0);
    ($(-1.0), $(-1.0), $1.0, $1.0);       ($1.0, $(-1.0), $1.0, $1.0);
    ($(-1.0), $1.0, $1.0, $1.0);          ($1.0, $1.0, $1.0, $1.0) ].
Proof. reflexivity. Qed.


End TesseractPoints.

Module TesseractFacts.
Import RealModel RealFacts.
Local Open Scope R_scope.

Lemma sqrt2_bounds : 1 < sqrt 2 < 2 /\ sqrt 2 * sqrt 2 = 2.
Proof.
  assert (H2 : sqrt 2 * sqrt 2 = 2) by (apply sqrt_sqrt; lra).
  pose proof (sqrt_pos 2). repeat split; try exact H2; nra.
Qed.






End TesseractFacts.

(** ** The first vertex of a stream *)

Lemma for_each_range_nth {B : Type} (n : Z) (body : Z -> list B -> list B)
      (k : nat) (d : B) :
  0 < n -> appends body -> (k < length (body 0%Z []))%nat ->
  nth k (for_each (range n) body []) d = nth k (body 0 []) d.
Proof.
  intros Hn Hb Hk.
  destruct (range_head n Hn) as [tl ->].
  rewrite for_each_appends by exact Hb. simpl.
  now apply app_nth1.
Qed.

Lemma for_each_range_firstn {B : Type} (n : Z) (body : Z -> list B -> list B) (k : nat) :
  0 < n -> appends body -> (k <= length (body 0%Z []))%nat ->
  firstn k (for_each (range n) body []) = firstn k (body 0 []).
Proof.
  intros Hn Hb Hk.
  destruct (range_head n Hn) as [tl ->].
  rewrite for_each_appends by exact Hb. simpl.
  rewrite firstn_app.
  replace (k - length (body 0%Z []))%nat with 0%nat by lia.
  simpl. now rewrite app_nil_r.
Qed.

Lemma nth_differ {B : Type} (k : nat) (d : B) (l1 l2 : list B) :
  nth k l1 d <> nth k l2 d -> l1 <> l2.
Proof. intros H E. apply H. now rewrite E. Qed.

(** ** The superformula at time 0 *)

Module SuperformulaFacts.
Import RealModel RealFacts.
Local Open Scope R_scope.

Lemma pow_one (y : R) : pow 1 y = 1.
Proof.
  unfold pow. destruct (Rlt_dec 0 1) as [_|H]; [ | lra ].
  unfold Rpower. rewrite ln_1, Rmult_0_r. apply exp_0.
Qed.

Lemma pow_zero (y : R) : 0 < y -> pow 0 y = 0.
Proof.
  intros Hy. unfold pow.
  destruct (Rlt_dec 0 0) as [H|_]; [ lra | ].
  destruct (Rlt_dec 0 y) as [_|H]; [ reflexivity | contradiction ].
Qed.

Lemma parameters_at_0 :
  superformula_m 0 = 6 /\ superformula_n1 0 = 3 / 10 /\
  superformula_n2 0 = 3 /\ superformula_n3 0 = 1.
Proof.
  unfold superformula_m, superformula_n1, superformula_n2, superformula_n3.
  real_ops. rewrite !Rmult_0_l, sin_0, cos_0, Rabs_R0, Rabs_R1.
  real_lits. repeat split; lra.
Qed.

Lemma first_point (this : MathAnimation R) (v : list R) :
  firstn 3 (generateSuperformula this v 0) = [1; 0; 0].
Proof.
  destruct parameters_at_0 as (Hm & Hn1 & Hn2 & Hn3).
  pose proof (getQualityMultiplier_pos (qualityLevel this)) as Hq.
  unfold generateSuperformula. cbv zeta. unfold clear.
  rewrite for_each_range_firstn; [ | lia | appends_tac | simpl; lia ].
  cbv beta zeta delta [push_back app firstn]. cbv iota.
  rewrite Hm, Hn1, Hn2, Hn3. real_ops.
  set (N := IZR (1000 * getQualityMultiplier (qualityLevel this))).
  assert (Hφ : 0 / N * Q2R 2.0 * PI = 0) by (unfold Rdiv; ring).
  rewrite Hφ.
  assert (Ha : 6 * 0 / Q2R 4.0 = 0) by (unfold Rdiv; ring).
  rewrite Ha, cos_0, sin_0.
  replace (1 / 1) with 1 by lra.
  replace (0 / 1) with 0 by lra.
  rewrite Rabs_R1, Rabs_R0, pow_one, pow_zero by lra.
  rewrite Rplus_0_r, pow_one.
  replace (Q2R 0.0) with 0 by (real_lits; lra).
  f_equal; [ lra | f_equal; lra ].
Qed.

End SuperformulaFacts.

(** C10, as the code has it.  At t = 0 the superformula parameters are
    m = 6, n1 = 0.3, n2 = 3 (from 1 + 2 |cos 0|, not 1) and n3 = 1, and at
    every quality level the first emitted position is (1, 0, 0). *)
Theorem superformula_at_time_0 (q : Z) (m : R) (this : MathAnimation R) :
  superformula_m 0%R = 6%R /\ superformula_n1 0%R = (3 / 10)%R /\
  superformula_n2 0%R = 3%R /\ superformula_n3 0%R = 1%R /\
  firstn 3 (generate 6 0%R q m this) = [1%R; 0%R; 0%R].
Proof.
  destruct SuperformulaFacts.parameters_at_0 as (Hm & Hn1 & Hn2 & Hn3).
  repeat (split; [ assumption | ]).
  enter_generator. apply SuperformulaFacts.first_point.
Qed.

(** The parameter values of the scenario do not all hold: n2 is 3 at
    t = 0. *)
Lemma superformula_n2_is_not_1 :
  ~ (superformula_m 0%R = 6%R /\ superformula_n1 0%R = (3 / 10)%R /\
     superformula_n2 0%R = 1%R /\ superformula_n3 0%R = 1%R /\
     firstn 3 (generate 6 0%R 2 (1 / 2)%R RealModel.zero_storage) = [1%R; 0%R; 0%R]).
Proof.
  intros (_ & _ & H & _).
  destruct SuperformulaFacts.parameters_at_0 as (_ & _ & Hn2 & _).
  rewrite Hn2 in H. lra.
Qed.

(** ** Dependence on time *)

Lemma for_each_range2_nth {B : Type} (n m : Z) (body : Z -> Z -> list B -> list B)
      (k : nat) (d : B) :
  0 < n -> 0 < m ->
  (forall i, appends (body i)) ->
  (forall i j, length (body i j []) = 6%nat) ->
  (k < 6)%nat ->
  nth k (for_each (range n) (fun i v => for_each (range m) (body i) v) []) d =
  nth k (body 0 0 []) d.
Proof.
  intros Hn Hm Hb Hl Hk.
  rewrite for_each_range_nth.
  - apply for_each_range_nth; [ exact Hm | apply Hb | rewrite Hl; exact Hk ].
  - exact Hn.
  - apply appends_for_each. exact Hb.
  - rewrite for_each_length with (k := 6%nat); [ | apply Hb | apply Hl ].
    rewrite range_length. simpl length. lia.
Qed.

Module AnimationFacts.
Import RealModel RealFacts.
Local Open Scope R_scope.

(** Selects the [k]-th float of the first vertex of a single loop. *)
Ltac first_vertex :=
cbv zeta; unfold clear;
rewrite for_each_range_nth;
[ cbv beta iota zeta delta [push_back app nth]
| match goal with
  | |- context [getQualityMultiplier ?q] =>
      pose proof (getQualityMultiplier_pos q); lia
  end
| appends_tac
| cbv beta iota zeta delta [push_back app length]; lia ].

(** The same for two nested loops. *)
Ltac first_vertex2 :=
cbv zeta; unfold clear;
rewrite for_each_range2_nth;
[ cbv beta iota zeta delta [push_back app nth]
| | | intros ?; appends_tac | intros ? ?; reflexivity | lia ].

(** Removes the products by the loop index 0. *)
Ltac index_zero :=
real_ops; real_lits; unfold Rdiv;
repeat (rewrite Rmult_0_l || rewrite Rmult_0_r || rewrite Rplus_0_l || rewrite Rplus_0_r).

Lemma spiral_red (this : MathAnimation R) (v : list R) (t : R) :
nth 3 (generateParametricSpiral this v t) 0 = 6 / 10 + 4 / 10 * sin t.
Proof.
unfold generateParametricSpiral. first_vertex. index_zero. lra.
Qed.

Lemma lissajous_red (this : MathAnimation R) (v : list R) (t : R) :
nth 3 (generateLissajous this v t) 0 = 7 / 10 + 3 / 10 * sin t.
Proof.
unfold generateLissajous. first_vertex. index_zero. lra.
Qed.

Lemma helix_blue (this : MathAnimation R) (v : list R) (t : R) :
nth 5 (generate3DHelix this v t) 0 = 7 / 10 + 3 / 10 * sin t.
Proof.
unfold generate3DHelix. first_vertex. index_zero. lra.
Qed.

Lemma superformula_blue (this : MathAnimation R) (v : list R) (t : R) :
nth 5 (generateSuperformula this v t) 0 = 5 / 10 + 5 / 10 * sin t.
Proof.
unfold generateSuperformula. first_vertex. index_zero. lra.
Qed.

Lemma phyllotaxis_blue (this : MathAnimation R) (v : list R) (t : R) :
nth 5 (generatePhyllotaxis this v t) 0 = 5 / 10 + 5 / 10 * sin t.
Proof.
unfold generatePhyllotaxis. first_vertex. index_zero. lra.
Qed.

Lemma hypotrochoid_x (this : MathAnimation R) (v : list R) (t : R) :
nth 0 (generateHypotrochoid this v t) 0 =
(1 + 3 / 10 * sin (t * (5 / 10))) - (3 / 10 + 1 / 10 * cos (t * (7 / 10)))
+ (5 / 10 + 2 / 10 * sin (t * (13 / 10))).
Proof.
unfold generateHypotrochoid. first_vertex. index_zero.
rewrite cos_0. lra.
Qed.

Ltac multiplier_pos :=
match goal with
| |- context [getQualityMultiplier ?q] =>
    pose proof (getQualityMultiplier_pos q); lia
end.

Lemma torus_red (this : MathAnimation R) (v : list R) (t : R) :
nth 3 (generateTorus this v t) 0 = 6 / 10 + 4 / 10 * cos (t + t).
Proof.
unfold generateTorus. first_vertex2; [ | multiplier_pos | multiplier_pos ].
index_zero. lra.
Qed.

Lemma klein_red (this : MathAnimation R) (v : list R) (t : R) :
nth 3 (generateKleinBottle this v t) 0 = 5 / 10 + 5 / 10 * sin t.
Proof.
unfold generateKleinBottle. first_vertex2; [ | multiplier_pos | multiplier_pos ].
index_zero. lra.
Qed.

Lemma harmonic_blue (this : MathAnimation R) (v : list R) (t : R) :
nth 5 (generateSphericalHarmonic this v t) 0 = 3 / 10 + 7 / 10 * Rabs (sin t).
Proof.
unfold generateSphericalHarmonic. first_vertex2; [ | multiplier_pos | multiplier_pos ].
index_zero. lra.
Qed.

Lemma wave_blue (this : MathAnimation R) (v : list R) (t : R) :
nth 5 (generateWaveInterference this v t) 0 = 5 / 10 + 5 / 10 * sin t.
Proof.
unfold generateWaveInterference.
change (to_int (fmul (of_int 100)
          (fsqrt (of_int (getQualityMultiplier (qualityLevel this))))))
  with (sqrt_side 100 this).
first_vertex2; [ | apply sqrt_side_pos; auto | apply sqrt_side_pos; auto ].
index_zero. lra.
Qed.

(** The corner cell of the sine surface lies at distance [sqrt (9/2)] from
  the centre. *)
Lemma surface_green (this : MathAnimation R) (v : list R) (t : R) :
nth 4 (generateSineWaveSurface this v t) 0 =
2 / 10 + 6 / 10 * sin (sqrt (9 / 2) * (5 / 10) + t).
Proof.
unfold generateSineWaveSurface.
change (to_int (fmul (of_int 80)
          (fsqrt (of_int (getQualityMultiplier (qualityLevel this))))))
  with (sqrt_side 80 this).
first_vertex2; [ | apply sqrt_side_pos; auto | apply sqrt_side_pos; auto ].
index_zero.
match goal with
| |- context [sqrt ?e] => replace e with (9 * / 2) by lra
end.
lra.
Qed.

Lemma tesseract_blue (this : MathAnimation R) (v : list R) (t : R) :
nth 5 (generateTesseract4D this v t) 0 = 5 / 10 + 5 / 10 * sin t.
Proof.
unfold generateTesseract4D. cbv zeta. unfold clear.
rewrite tesseract_pts4_eq. unfold tesseract_rotate. cbv zeta.
cbn [map]. rewrite for_each_appends by appends_tac.
cbn [flat_map]. cbv beta iota zeta delta [push_back app nth].
index_zero. lra.
Qed.

Lemma lorenz_x (this : MathAnimation R) (v : list R) (t : R) :
nth 0 (generateLorenzAttractor this v t) 0 =
(1 / 10 + (10 + 5 * sin (t * (3 / 10))) * (0 - 1 / 10) * (5 / 1000)) * (1 / 10).
Proof.
rewrite generateLorenzAttractor_first. real_ops. real_lits. unfold Rdiv. lra.
Qed.

(** Every vertex the gyroid emits carries the same blue channel, so the
  sixth float of a non-empty stream is that channel. *)
Lemma gyroid_blue (this : MathAnimation R) (v : list R) (t : R) :
nth 5 (generateGyroid this v t) 0 = 5 / 10 + 5 / 10 * sin t.
Proof.
pose proof (generateGyroid_not_nil this v t) as Hne.
rewrite generateGyroid_cells in *.
induction (grid_cells (gyroid_finalGrid this)) as [|[[i j] k] l IH].
- contradiction.
- cbn [flat_map] in *. unfold gyroid_voxel at 1 in Hne. unfold gyroid_voxel at 1.
  cbv zeta in *.
  destruct (fltb _ _).
  + cbv beta iota zeta delta [push_back app nth].
    real_ops. real_lits. unfold Rdiv. lra.
  + cbn [app] in *. apply IH. exact Hne.
Qed.

(** *** The escape-time loop on two sample points *)

Lemma escape_loop_go (fuel : nat) (maxI : Z) (x0 y0 x y x' y' : R) (iter : Z) :
x * x + y * y < 4 -> (iter < maxI)%Z ->
x' = x * x - y * y + x0 -> y' = 2 * x * y + y0 ->
escape_loop (S fuel) maxI x0 y0 x y iter =
escape_loop fuel maxI x0 y0 x' y' (iter + 1).
Proof.
intros Hin Hit -> ->. cbn [escape_loop]. real_ops.
replace (Q2R 4.0) with 4 by (real_lits; lra).
rewrite ltb_true by exact Hin.
apply Z.ltb_lt in Hit. rewrite Hit. reflexivity.
Qed.

Lemma escape_loop_stop (fuel : nat) (maxI : Z) (x0 y0 x y : R) (iter : Z) :
4 <= x * x + y * y ->
escape_loop (S fuel) maxI x0 y0 x y iter = iter.
Proof.
intros Hout. cbn [escape_loop]. real_ops.
replace (Q2R 4.0) with 4 by (real_lits; lra).
rewrite ltb_false by exact Hout. reflexivity.
Qed.

Lemma escape_time_2 (x0 y0 : R) :
x0 * x0 + y0 * y0 < 4 ->
4 <= (x0 * x0 - y0 * y0 + x0) * (x0 * x0 - y0 * y0 + x0)
     + (2 * x0 * y0 + y0) * (2 * x0 * y0 + y0) ->
escape_time x0 y0 = 2%Z.
Proof.
intros H1 H2. unfold escape_time. cbv zeta.
change (Z.to_nat (100 - 0)) with 100%nat. real_ops.
rewrite (escape_loop_go _ _ _ _ _ _ x0 y0) by (try lra; lia).
rewrite (escape_loop_go _ _ _ _ _ _ (x0 * x0 - y0 * y0 + x0) (2 * x0 * y0 + y0))
  by (try lra; lia).
rewrite escape_loop_stop by exact H2. reflexivity.
Qed.

Lemma escape_time_3 (x0 y0 x2 y2 x3 y3 : R) :
x0 * x0 + y0 * y0 < 4 ->
x2 = x0 * x0 - y0 * y0 + x0 -> y2 = 2 * x0 * y0 + y0 ->
x2 * x2 + y2 * y2 < 4 ->
x3 = x2 * x2 - y2 * y2 + x0 -> y3 = 2 * x2 * y2 + y0 ->
4 <= x3 * x3 + y3 * y3 ->
escape_time x0 y0 = 3%Z.
Proof.
intros H1 Ex2 Ey2 H2 Ex3 Ey3 H3. unfold escape_time. cbv zeta.
change (Z.to_nat (100 - 0)) with 100%nat. real_ops.
rewrite (escape_loop_go _ _ _ _ _ _ x0 y0) by (try lra; lia).
rewrite (escape_loop_go _ _ _ _ _ _ x2 y2) by (try assumption; lia).
rewrite (escape_loop_go _ _ _ _ _ _ x3 y3) by (try assumption; lia).
rewrite escape_loop_stop by exact H3. reflexivity.
Qed.

(** The height channel of the first cell of the fractal grid. *)
Lemma fractal_height (this : MathAnimation R) (v : list R) (t : R) :
nth 3 (generateFractalZoom this v t) 0 =
IZR (escape_time
       ((0 - 5 / 10) * (15 / 10 + 5 / 10 * sin (t * (2 / 10)))
        + (-5 / 10 + 2 / 10 * cos (t * (3 / 10))))
       ((0 - 5 / 10) * (15 / 10 + 5 / 10 * sin (t * (2 / 10)))
        + (0 + 2 / 10 * sin (t * (4 / 10))))) / 100.
Proof.
unfold generateFractalZoom.
change (to_int (fmul (of_int 200)
          (fsqrt (of_int (getQualityMultiplier (qualityLevel this))))))
  with (sqrt_side 200 this).
first_vertex2; [ | apply sqrt_side_pos; auto | apply sqrt_side_pos; auto ].
index_zero. reflexivity.
Qed.

Lemma fractal_height_at_0 (this : MathAnimation R) (v : list R) :
nth 3 (generateFractalZoom this v 0) 0 = 3 / 100.
Proof.
rewrite fractal_height. rewrite !Rmult_0_l, sin_0, cos_0.
rewrite (escape_time_3 _ _ (-51 / 100) (33 / 40) (-58821 / 40000) (-3183 / 2000));
  lra.
Qed.

Lemma fractal_height_at_5PI2 (this : MathAnimation R) (v : list R) :
nth 3 (generateFractalZoom this v (5 * PI / 2)) 0 = 2 / 100.
Proof.
rewrite fractal_height.
replace (5 * PI / 2 * (2 / 10)) with (PI / 2) by lra.
replace (5 * PI / 2 * (3 / 10)) with (3 * (PI / 4)) by lra.
replace (5 * PI / 2 * (4 / 10)) with PI by lra.
rewrite sin_PI2, cos_3PI4, sin_PI.
destruct TesseractFacts.sqrt2_bounds as [[Hs1 Hs2] Hs].
assert (Hinv : -1 / sqrt 2 = - sqrt 2 / 2).
{ assert (Hi : / sqrt 2 = sqrt 2 / 2).
  { apply Rmult_eq_reg_l with (sqrt 2); [ | lra ].
    rewrite Rinv_r by lra. nra. }
  unfold Rdiv at 1. rewrite Hi. lra. }
rewrite Hinv.
rewrite escape_time_2; [ lra | nra | nra ].
Qed.

End AnimationFacts.

(** Closes a mode whose probed float is [a + b * sin t]: times 0 and
    pi / 2 tell the streams apart. *)
Ltac differ_by_sine k probe :=
  exists 0%R, (PI / 2)%R; enter_generator; apply (nth_differ k 0%R);
  rewrite !probe, sin_0, sin_PI2; lra.

(** C6, as the code has it.  In the real-number model, for every quality
    level and central mass, each of the modes 0..14 produces different
    streams at two times (so it animates), while mode 15 produces the same
    stream at all times: its generator never reads its time argument. *)
Theorem animation_depends_on_time (mode q : Z) (m : R) (this : MathAnimation R) :
  (0 <= mode <= 14 ->
   exists t1 t2 : R, generate mode t1 q m this <> generate mode t2 q m this) /\
  (forall t1 t2 : R, generate 15 t1 q m this = generate 15 t2 q m this).
Proof.
  split.
  - intros Hr.
    assert (H : 0 <= mode <= 15) by lia.
    destruct (mode_cases mode H) as
      [E|[E|[E|[E|[E|[E|[E|[E|[E|[E|[E|[E|[E|[E|[E|E]]]]]]]]]]]]]]];
      subst mode; [ .. | lia ].
    + differ_by_sine 3%nat AnimationFacts.spiral_red.
    + differ_by_sine 3%nat AnimationFacts.lissajous_red.
    + differ_by_sine 5%nat AnimationFacts.helix_blue.
    + exists 0%R, PI. enter_generator. apply (nth_differ 4 0%R).
      rewrite !AnimationFacts.surface_green, Rplus_0_r, neg_sin.
      assert (Hs : (0 < sqrt (9 / 2) < 3)%R).
      { split; [ apply sqrt_lt_R0; lra | ].
        assert (H9 : (sqrt (9 / 2) < sqrt 9)%R) by (apply sqrt_lt_1_alt; lra).
        assert (E9 : sqrt 9 = 3%R).
        { replace 9%R with (3 * 3)%R by lra. apply sqrt_square. lra. }
        lra. }
      pose proof RealFacts.PI_bounds as [HP _].
      assert (0 < sin (sqrt (9 / 2) * (5 / 10)))%R by (apply sin_gt_0; lra).
      lra.
    + exists 0%R, (PI / 2)%R. enter_generator. apply (nth_differ 3 0%R).
      rewrite !AnimationFacts.torus_red.
      replace (PI / 2 + PI / 2)%R with PI by lra.
      rewrite Rplus_0_r, cos_0, cos_PI. lra.
    + exists 0%R, PI. enter_generator. apply (nth_differ 0 0%R).
      rewrite !AnimationFacts.hypotrochoid_x.
      rewrite !Rmult_0_l, sin_0, cos_0.
      replace (PI * (5 / 10))%R with (PI / 2)%R by lra.
      rewrite sin_PI2.
      pose proof (COS_bound (PI * (7 / 10))). pose proof (SIN_bound (PI * (13 / 10))).
      lra.
    + differ_by_sine 5%nat AnimationFacts.superformula_blue.
    + exists 0%R, (5 * PI / 3)%R. enter_generator. apply (nth_differ 0 0%R).
      rewrite !AnimationFacts.lorenz_x.
      replace (5 * PI / 3 * (3 / 10))%R with (PI / 2)%R by lra.
      rewrite Rmult_0_l, sin_0, sin_PI2. lra.
    + differ_by_sine 3%nat AnimationFacts.klein_red.
    + differ_by_sine 5%nat AnimationFacts.gyroid_blue.
    + exists 0%R, (PI / 2)%R. enter_generator. apply (nth_differ 5 0%R).
      rewrite !AnimationFacts.harmonic_blue, sin_0, sin_PI2, Rabs_R0, Rabs_R1. lra.
    + exists 0%R, (5 * PI / 2)%R. enter_generator. apply (nth_differ 3 0%R).
      rewrite AnimationFacts.fractal_height_at_0, AnimationFacts.fractal_height_at_5PI2.
      lra.
    + differ_by_sine 5%nat AnimationFacts.phyllotaxis_blue.
    + differ_by_sine 5%nat AnimationFacts.tesseract_blue.
    + differ_by_sine 5%nat AnimationFacts.wave_blue.
  - intros t1 t2. enter_generator.
    apply generateGravitationalSpacetime_frame; reflexivity.
Qed.

Lemma animation_depends_on_time_witness :
  exists t1 t2 : R,
    generate 11 t1 3 (1 / 2)%R RealModel.zero_storage <>
    generate 11 t2 3 (1 / 2)%R RealModel.zero_storage.
Proof.
  refine (proj1 (animation_depends_on_time 11 3 (1 / 2)%R RealModel.zero_storage) _).
  lia.
Defined.

(** Mode 15 does not animate: no two times give different streams. *)
Lemma gravitational_is_static :
  ~ (forall mode : Z, 0 <= mode <= 15 ->
       exists t1 t2 : R,
         generate mode t1 2 (1 / 2)%R RealModel.zero_storage <>
         generate mode t2 2 (1 / 2)%R RealModel.zero_storage).
Proof.
  intros H. destruct (H 15) as (t1 & t2 & Hne); [ lia | ].
  apply Hne. enter_generator.
  apply generateGravitationalSpacetime_frame; reflexivity.
Qed.

(** * Further properties of the engine *)

(** ** Key presses and the main loop *)

Section KeysAndFrames.
Context {F : Type} {FA : FloatArith F} {FM : FloatMath F}.
Implicit Types (this app : MathAnimation F) (t : F).

Lemma keyCallback_mode_quality app (key : Key) :
  0 <= animationMode app <= 15 -> 0 <= qualityLevel app <= 3 ->
  0 <= animationMode (keyCallback app key) <= 15 /\
  0 <= qualityLevel (keyCallback app key) <= 3.
Proof.
  intros Hm Hq.
  destruct key; unfold keyCallback, increaseMass, decreaseMass, setQuality;
    cbv zeta;
    cbn [animationMode qualityLevel set_animationMode set_qualityLevel
         set_centralMass set_cameraPos set_vertices];
    split; assumption || lia.
Qed.

Lemma keys_mode_quality (keys : list Key) app :
  0 <= animationMode app <= 15 -> 0 <= qualityLevel app <= 3 ->
  0 <= animationMode (fold_left keyCallback keys app) <= 15 /\
  0 <= qualityLevel (fold_left keyCallback keys app) <= 3.
Proof.
  revert app. induction keys as [|k keys IH]; intros app Hm Hq; [ now split | ].
  cbn [fold_left]. destruct (keyCallback_mode_quality app k Hm Hq). now apply IH.
Qed.

Lemma render_length_divide this t :
  0 <= animationMode this <= 15 ->
  Nat.divide 6 (length (vertices (render this t))).
Proof.
  intros Hr. unfold render.
  destruct (mode_cases _ Hr) as
    [E|[E|[E|[E|[E|[E|[E|[E|[E|[E|[E|[E|[E|[E|[E|E]]]]]]]]]]]]]]];
    rewrite E; cbv beta iota; cbn [vertices set_vertices];
    [ rewrite generateParametricSpiral_length | rewrite generateLissajous_length
    | rewrite generate3DHelix_length | rewrite generateSineWaveSurface_length
    | rewrite generateTorus_length | rewrite generateHypotrochoid_length
    | rewrite generateSuperformula_length | rewrite generateLorenzAttractor_length
    | rewrite generateKleinBottle_length | apply generateGyroid_length_divide
    | rewrite generateSphericalHarmonic_length | rewrite generateFractalZoom_length
    | rewrite generatePhyllotaxis_length | rewrite generateTesseract4D_length
    | rewrite generateWaveInterference_length
    | rewrite generateGravitationalSpacetime_length ];
    try apply Nat.divide_factor_l.
Qed.

Lemma run_mode_quality app (rounds : list (list Key * F)) :
  0 <= animationMode app <= 15 -> 0 <= qualityLevel app <= 3 ->
  0 <= animationMode (run app rounds) <= 15 /\
  0 <= qualityLevel (run app rounds) <= 3.
Proof.
  unfold run. revert app.
  induction rounds as [|r rounds IH]; intros app Hm Hq; [ now split | ].
  cbn [fold_left].
  destruct (keys_mode_quality (fst r) app Hm Hq) as [Hm' Hq'].
  destruct (render_members (fold_left keyCallback (fst r) app) (snd r))
    as (Em & Eq & _).
  apply IH; unfold loop_round; cbv zeta; [ rewrite Em | rewrite Eq ]; assumption.
Qed.

(** X1.  From a freshly constructed object, whatever keys are pressed and
    however many frames are drawn, the mode stays in 0..15 and the quality
    level in 0..3: the switch of [render] always finds its case and
    [getQualityMultiplier] never takes its default. *)
Theorem run_keeps_mode_and_quality (storage : MathAnimation F)
        (rounds : list (list Key * F)) :
  let app := run (MathAnimation_ctor storage) rounds in
  0 <= animationMode app <= 15 /\ 0 <= qualityLevel app <= 3.
Proof.
  cbv zeta. apply run_mode_quality.
  - cbn [animationMode MathAnimation_ctor]. lia.
  - cbn [qualityLevel MathAnimation_ctor]. lia.
Qed.


(** X3.  After every round of the main loop the vector holds whole
    vertices, the count passed to [glDrawArrays] accounts for every float
    of it, and the topology is points exactly in the modes 3, 9, 11, 14. *)
Theorem run_draws_whole_vertices (storage : MathAnimation F)
        (rounds : list (list Key * F)) :
  let app := run (MathAnimation_ctor storage) rounds in
  6 * snd (drawArrays app) = Z.of_nat (length (vertices app)) /\
  (fst (drawArrays app) = GL_POINTS <->
   animationMode app = 3 \/ animationMode app = 9 \/
   animationMode app = 11 \/ animationMode app = 14).
Proof.
  cbv zeta. split.
  - assert (Hdiv : Nat.divide 6
                     (length (vertices (run (MathAnimation_ctor storage) rounds)))).
    { unfold run.
      destruct (rev rounds) as [|r rs] eqn:E.
      - apply (f_equal (@rev _)) in E. rewrite rev_involutive in E. rewrite E.
        cbn. apply Nat.divide_0_r.
      - apply (f_equal (@rev _)) in E. rewrite rev_involutive in E. rewrite E.
        cbn [rev]. rewrite fold_left_app. cbn [fold_left]. unfold loop_round at 1.
        cbv zeta. apply render_length_divide.
        set (before := fold_left loop_round (rev rs) (MathAnimation_ctor storage)).
        destruct (run_mode_quality (MathAnimation_ctor storage) (rev rs)) as [Hm Hq];
          [ cbn; lia | cbn; lia | ].
        fold before in Hm, Hq. unfold run in Hm, Hq. fold before in Hm, Hq.
        apply (keys_mode_quality (fst r) before Hm Hq). }
    destruct Hdiv as [n Hn].
    unfold drawArrays. cbv zeta. rewrite Hn.
    assert (Z.of_nat (n * 6) / 6 = Z.of_nat n).
    { rewrite Nat2Z.inj_mul. apply Z.div_mul. lia. }
    destruct (_ || _); cbn [snd]; lia.
  - unfold drawArrays. cbv zeta.
    destruct (animationMode _ =? 3) eqn:E3; [ apply Z.eqb_eq in E3; cbn; tauto | ].
    destruct (animationMode _ =? 9) eqn:E9; [ apply Z.eqb_eq in E9; cbn; tauto | ].
    destruct (animationMode _ =? 11) eqn:E11; [ apply Z.eqb_eq in E11; cbn; tauto | ].
    destruct (animationMode _ =? 14) eqn:E14; [ apply Z.eqb_eq in E14; cbn; tauto | ].
    apply Z.eqb_neq in E3, E9, E11, E14. cbn. split; [ discriminate | lia ].
Qed.

(** X4.  After a round of the main loop the vector is the stream of the
    mode, quality level and central mass the object now has, at the clock
    value of that round: whatever the keys of the round did to the vector
    (the reset key K rebuilds it), the frame replaces it. *)
Theorem run_shows_current_settings (storage : MathAnimation F)
        (rounds : list (list Key * F)) (keys : list Key) (t : F) :
  let app := run (MathAnimation_ctor storage) (rounds ++ [(keys, t)]) in
  vertices app =
  generate (animationMode app) t (qualityLevel app) (centralMass app) app.
Proof.
  cbv zeta. unfold run. rewrite fold_left_app. cbn [fold_left].
  fold (run (MathAnimation_ctor storage) rounds).
  set (before := run (MathAnimation_ctor storage) rounds).
  unfold loop_round. cbn [fst snd].
  set (pressed := fold_left keyCallback keys before).
  destruct (run_mode_quality (MathAnimation_ctor storage) rounds) as [Hm Hq];
    [ cbn; lia | cbn; lia | ].
  fold before in Hm, Hq.
  destruct (keys_mode_quality keys before Hm Hq) as [Hm' Hq'].
  fold pressed in Hm', Hq'.
  destruct (render_members pressed t) as (Em & Eq & Ec & Ed).
  unfold generate. cbv zeta.
  apply render_vertices_frame.
  - exact Hm'.
  - cbn [animationMode set_centralMass set_qualityLevel set_animationMode].
    now rewrite Em.
  - cbn [qualityLevel set_centralMass set_qualityLevel set_animationMode].
    now rewrite Eq.
  - cbn [centralMass set_centralMass set_qualityLevel set_animationMode].
    now rewrite Ec.
  - cbn [maxDeformation set_centralMass set_qualityLevel set_animationMode].
    now rewrite Ed.
Qed.

End KeysAndFrames.


(** ** Quality only extends the Lorenz and phyllotaxis streams *)

Lemma range_split (n1 n2 : Z) :
  0 <= n1 <= n2 -> exists tl, range n2 = range n1 ++ tl.
Proof.
  intros H. unfold range.
  replace (Z.to_nat n2) with (Z.to_nat n1 + (Z.to_nat n2 - Z.to_nat n1))%nat by lia.
  rewrite seq_app, map_app. eexists. reflexivity.
Qed.

Section Prefix.
Context {F : Type} {FA : FloatArith F} {FM : FloatMath F}.
Implicit Types (this : MathAnimation F) (v : list F) (t : F).

Lemma lorenz_loop_app (σ ρ β dt t : F) (l1 l2 : list Z) (s : list F * (F * F * F)) :
  exists rest,
    fst (for_each (l1 ++ l2) (lorenz_step σ ρ β dt t) s) =
    fst (for_each l1 (lorenz_step σ ρ β dt t) s) ++ rest.
Proof.
  unfold for_each at 1. rewrite fold_left_app.
  fold (for_each l1 (lorenz_step σ ρ β dt t) s).
  destruct (for_each l1 (lorenz_step σ ρ β dt t) s) as [w p].
  fold (for_each l2 (lorenz_step σ ρ β dt t) (w, p)).
  destruct (lorenz_loop_prefix σ ρ β dt t l2 w p) as [rest [-> _]].
  exists rest. reflexivity.
Qed.

(** X5.  The Lorenz trajectory and the phyllotaxis seeds do not depend on
    how many of them are emitted: at the same time, the stream of an object
    with a smaller quality multiplier is a prefix of the stream of one with
    a larger multiplier. *)
Theorem quality_extends_lorenz_and_phyllotaxis this1 this2 v1 v2 t :
  getQualityMultiplier (qualityLevel this1) <= getQualityMultiplier (qualityLevel this2) ->
  (exists rest, generateLorenzAttractor this2 v2 t =
                generateLorenzAttractor this1 v1 t ++ rest) /\
  (exists rest, generatePhyllotaxis this2 v2 t =
                generatePhyllotaxis this1 v1 t ++ rest).
Proof.
  intros Hle.
  pose proof (getQualityMultiplier_pos (qualityLevel this1)) as H1.
  split.
  - unfold generateLorenzAttractor. cbv zeta. unfold clear.
    destruct (range_split (5000 * getQualityMultiplier (qualityLevel this1))
                          (5000 * getQualityMultiplier (qualityLevel this2)))
      as [tl ->]; [ lia | ].
    apply lorenz_loop_app.
  - unfold generatePhyllotaxis. cbv zeta. unfold clear.
    destruct (range_split (1000 * getQualityMultiplier (qualityLevel this1))
                          (1000 * getQualityMultiplier (qualityLevel this2)))
      as [tl ->]; [ lia | ].
    rewrite !for_each_appends by appends_tac.
    rewrite flat_map_app. cbn [app]. eexists. reflexivity.
Qed.

End Prefix.

Lemma quality_extends_lorenz_and_phyllotaxis_witness :
  exists rest,
    generateLorenzAttractor (set_qualityLevel RealModel.zero_storage 3) [] 0%R =
    generateLorenzAttractor (set_qualityLevel RealModel.zero_storage 0) [] 0%R ++ rest.
Proof.
  refine (proj1 (quality_extends_lorenz_and_phyllotaxis
                   (set_qualityLevel RealModel.zero_storage 0)
                   (set_qualityLevel RealModel.zero_storage 3) [] [] 0%R _)).
  cbn. lia.
Defined.

(** ** Background palette *)

Section Background.
Context {F : Type} {FA : FloatArith F}.
Implicit Types (app : MathAnimation F).

Lemma cycleBackground_mode app :
  0 <= backgroundMode app < 7 ->
  backgroundMode (cycleBackground app) = (backgroundMode app + 1) mod 7.
Proof.
  intros H. unfold cycleBackground. cbv zeta.
  cbn [backgroundMode set_backgroundMode length backgrounds].
  change (Z.of_nat 7) with 7.
  rewrite (Z.mod_small (backgroundMode app + 1)) by lia. reflexivity.
Qed.

Lemma iter_cycleBackground (n : nat) app :
  0 <= backgroundMode app < 7 ->
  backgroundMode (Nat.iter n cycleBackground app) =
  (backgroundMode app + Z.of_nat n) mod 7.
Proof.
  intros H. induction n as [|n IH].
  - cbn [Nat.iter nat_rect]. rewrite Z.add_0_r, Z.mod_small; lia.
  - rewrite Nat.iter_succ, cycleBackground_mode.
    + rewrite IH, Nat2Z.inj_succ, <- Z.add_1_r, Z.add_assoc.
      now rewrite Zplus_mod_idemp_l.
    + rewrite IH. apply Z.mod_pos_bound. lia.
Qed.

(** X6.  Key B walks through the seven backgrounds in a cycle: after [n]
    presses on a fresh object the index is [n mod 7], so it never leaves
    0..6, [updateBackgroundColor] always finds its colour (opaque), and
    seven presses bring the first background back. *)
Theorem background_cycles (storage : MathAnimation F) (n : nat) :
  let app := Nat.iter n cycleBackground (MathAnimation_ctor storage) in
  backgroundMode app = Z.of_nat n mod 7 /\
  (exists r g b, updateBackgroundColor app = Some (r, g, b, flit 1.0)) /\
  backgroundMode (Nat.iter 7 cycleBackground app) = backgroundMode app.
Proof.
  cbv zeta.
  assert (Hn : backgroundMode (Nat.iter n cycleBackground (MathAnimation_ctor storage))
               = Z.of_nat n mod 7).
  { rewrite iter_cycleBackground by (cbn; lia). reflexivity. }
  assert (Hr : 0 <= Z.of_nat n mod 7 < 7) by (apply Z.mod_pos_bound; lia).
  split; [ exact Hn | split ].
  - unfold updateBackgroundColor. rewrite Hn.
    destruct (Z.of_nat n mod 7 <? 0) eqn:E; [ apply Z.ltb_lt in E; lia | ].
    assert (Hc : Z.to_nat (Z.of_nat n mod 7) = 0%nat \/ Z.to_nat (Z.of_nat n mod 7) = 1%nat \/
                 Z.to_nat (Z.of_nat n mod 7) = 2%nat \/ Z.to_nat (Z.of_nat n mod 7) = 3%nat \/
                 Z.to_nat (Z.of_nat n mod 7) = 4%nat \/ Z.to_nat (Z.of_nat n mod 7) = 5%nat \/
                 Z.to_nat (Z.of_nat n mod 7) = 6%nat) by lia.
    destruct Hc as [E'|[E'|[E'|[E'|[E'|[E'|E']]]]]]; rewrite E'; cbn;
      do 3 eexists; reflexivity.
  - rewrite iter_cycleBackground by (rewrite Hn; exact Hr).
    rewrite Hn. change (Z.of_nat 7) with (1 * 7).
    rewrite Z.mod_add by lia. apply Z.mod_mod. lia.
Qed.

End Background.

(** ** Camera input *)

(** X7.  The pitch clamp of [mouseCallback] and the speed clamp of
    [scrollCallback].  On binary32 members with binary64 arguments,
    whatever the cursor position and the previous members are (NaN
    included), the stored pitch is never above
    89.0f nor below -89.0f and the stored camera speed is never below 0.5f
    nor above 10.0f; on real numbers they lie in [-89, 89] and
    [0.5, 10]. *)
Theorem camera_clamps :
  (forall (app : MathAnimation F32.f32) (xpos ypos : F64.f64),
     fltb (flit 89.0) (pitch (mouseCallback app xpos ypos)) = false /\
     fltb (pitch (mouseCallback app xpos ypos)) (flit (-89.0)) = false) /\
  (forall (app : MathAnimation F32.f32) (xoffset yoffset : F64.f64),
     fltb (cameraSpeed (scrollCallback app xoffset yoffset)) (flit 0.5) = false /\
     fltb (flit 10.0) (cameraSpeed (scrollCallback app xoffset yoffset)) = false) /\
  (forall (app : MathAnimation R) (xpos ypos : R),
     (-89 <= pitch (mouseCallback app xpos ypos) <= 89)%R) /\
  (forall (app : MathAnimation R) (xoffset yoffset : R),
     (1 / 2 <= cameraSpeed (scrollCallback app xoffset yoffset) <= 10)%R).
Proof.
  split; [ | split; [ | split ] ].
  - intros app xpos ypos. unfold mouseCallback.
    destruct (firstMouse app); cbv zeta beta iota; cbn [pitch set_look];
      match goal with
      | |- context [if fltb (flit 89.0) ?p then _ else _] =>
          generalize p; intros p0
      end;
      destruct (fltb (flit 89.0) p0) eqn:E1;
      match goal with
      | |- context [if fltb ?a ?b then _ else _] =>
          destruct (fltb a b) eqn:E2
      end;
      split; try assumption; try (vm_compute; reflexivity).
  - intros app xoffset yoffset. unfold scrollCallback.
    cbv zeta. cbn [cameraSpeed set_cameraSpeed].
    match goal with
    | |- context [if fltb ?p (flit 0.5) then _ else _] =>
        generalize p; intros p0
    end.
    destruct (fltb p0 (flit 0.5)) eqn:E1;
      match goal with
      | |- context [if fltb ?a ?b then _ else _] =>
          destruct (fltb a b) eqn:E2
      end;
      split; try assumption; try (vm_compute; reflexivity).
  - intros app xpos ypos. unfold mouseCallback.
    destruct (firstMouse app); cbv zeta beta iota; cbn [pitch set_look];
      cbn [widen narrow dadd dsub dmul RealDouble.double]; RealFacts.real_ops; unfold RealModel.ltb;
      replace (Q2R 89.0) with 89%R by (RealFacts.real_lits; lra);
      replace (Q2R (-89.0)) with (-89)%R by (RealFacts.real_lits; lra);
      repeat match goal with
             | |- context [Rlt_dec ?a ?b] => destruct (Rlt_dec a b)
             end; lra.
  - intros app xoffset yoffset. unfold scrollCallback.
    cbv zeta. cbn [cameraSpeed set_cameraSpeed].
    cbn [widen narrow dadd dsub dmul RealDouble.double]. RealFacts.real_ops. unfold RealModel.ltb.
    replace (Q2R 0.5) with (1 / 2)%R by (RealFacts.real_lits; lra).
    replace (Q2R 10.0) with 10%R by (RealFacts.real_lits; lra).
    repeat match goal with
           | |- context [Rlt_dec ?a ?b] => destruct (Rlt_dec a b)
           end; lra.
Qed.

(** X8.  The first cursor event after the cursor is captured does not turn
    the camera: it only records the position.  The turn of the following
    event is the cursor travel since then times the sensitivity, whatever
    position had been stored before (real-number model). *)
Theorem first_mouse_event_does_not_turn (app : MathAnimation R) (x1 y1 x2 y2 : R) :
  firstMouse app = true ->
  yaw (mouseCallback app x1 y1) = yaw app /\
  ((-89 <= pitch app <= 89)%R -> pitch (mouseCallback app x1 y1) = pitch app) /\
  firstMouse (mouseCallback app x1 y1) = false /\
  lastX (mouseCallback app x1 y1) = x1 /\ lastY (mouseCallback app x1 y1) = y1 /\
  yaw (mouseCallback (mouseCallback app x1 y1) x2 y2) =
    (yaw app + (x2 - x1) * mouseSensitivity app)%R.
Proof.
  intros Hf.
  assert (Hy : yaw (mouseCallback app x1 y1) = yaw app).
  { unfold mouseCallback. rewrite Hf. cbv zeta beta iota. cbn [yaw set_look].
    cbn [widen narrow dadd dsub dmul RealDouble.double]. RealFacts.real_ops. lra. }
  split; [ exact Hy | split; [ | split; [ | split; [ | split ] ] ] ].
  - intros Hp. unfold mouseCallback. rewrite Hf. cbv zeta beta iota.
    cbn [pitch set_look]. cbn [widen narrow dadd dsub dmul RealDouble.double]. RealFacts.real_ops. unfold RealModel.ltb.
    replace (Q2R 89.0) with 89%R by (RealFacts.real_lits; lra).
    replace (Q2R (-89.0)) with (-89)%R by (RealFacts.real_lits; lra).
    replace (pitch app + (y1 - y1) * mouseSensitivity app)%R with (pitch app) by ring.
    destruct (Rlt_dec 89 (pitch app)); [ lra | ].
    destruct (Rlt_dec (pitch app) (-89)); [ lra | reflexivity ].
  - unfold mouseCallback. rewrite Hf. reflexivity.
  - unfold mouseCallback. rewrite Hf. reflexivity.
  - unfold mouseCallback. rewrite Hf. reflexivity.
  - unfold mouseCallback at 1.
    replace (firstMouse (mouseCallback app x1 y1)) with false
      by (unfold mouseCallback; rewrite Hf; reflexivity).
    cbv zeta beta iota. cbn [yaw set_look]. rewrite Hy.
    replace (lastX (mouseCallback app x1 y1)) with x1
      by (unfold mouseCallback; rewrite Hf; reflexivity).
    replace (mouseSensitivity (mouseCallback app x1 y1)) with (mouseSensitivity app)
      by (unfold mouseCallback; rewrite Hf; reflexivity).
    cbn [widen narrow dadd dsub dmul RealDouble.double]. RealFacts.real_ops. reflexivity.
Qed.

Lemma first_mouse_event_does_not_turn_witness :
  yaw (mouseCallback (MathAnimation_ctor RealModel.zero_storage) 700%R 300%R)
  = yaw (MathAnimation_ctor RealModel.zero_storage).
Proof.
  refine (proj1 (first_mouse_event_does_not_turn
                   (MathAnimation_ctor RealModel.zero_storage)
                   700%R 300%R 0%R 0%R _)).
  reflexivity.
Defined.

(** ** The central mass under key presses *)

Lemma keyCallback_mass_range (app : MathAnimation R) (key : Key) :
  (1 / 10 <= centralMass app <= 5)%R ->
  (1 / 10 <= centralMass (keyCallback app key) <= 5)%R.
Proof.
  intros H.
  destruct key;
    try (unfold keyCallback, setQuality;
         cbn [centralMass set_animationMode set_qualityLevel]; exact H).
  - unfold keyCallback. rewrite increaseMass_real.
    unfold Rmin. destruct (Rle_dec _ _); lra.
  - unfold keyCallback. rewrite increaseMass_real.
    unfold Rmin. destruct (Rle_dec _ _); lra.
  - unfold keyCallback. rewrite decreaseMass_real.
    unfold Rmax. destruct (Rle_dec _ _); lra.
  - unfold keyCallback. rewrite decreaseMass_real.
    unfold Rmax. destruct (Rle_dec _ _); lra.
  - unfold keyCallback. cbv zeta.
    cbn [centralMass set_vertices set_centralMass set_cameraPos].
    cbn [widen narrow dadd dsub dmul RealDouble.double]. RealFacts.real_ops. RealFacts.real_lits. lra.
Qed.

(** X9.  Once the central mass lies in [0.1, 5] no sequence of key presses
    and frames takes it out of that range, and the reset key K puts it
    there (at 0.5) from any value (real-number model). *)
Theorem run_keeps_mass_in_range (app : MathAnimation R)
        (rounds : list (list Key * R)) :
  ((1 / 10 <= centralMass app <= 5)%R ->
   (1 / 10 <= centralMass (run app rounds) <= 5)%R) /\
  (1 / 10 <= centralMass (run (keyCallback app KEY_K) rounds) <= 5)%R.
Proof.
  assert (H : forall a : MathAnimation R,
             (1 / 10 <= centralMass a <= 5)%R ->
             (1 / 10 <= centralMass (run a rounds) <= 5)%R).
  { unfold run. induction rounds as [|r rounds IH]; intros a Ha; [ exact Ha | ].
    cbn [fold_left]. apply IH. unfold loop_round. cbv zeta.
    destruct (render_members (fold_left keyCallback (fst r) a) (snd r))
      as (_ & _ & -> & _).
    clear IH. revert a Ha. induction (fst r) as [|k ks IHk]; intros a Ha; [ exact Ha | ].
    cbn [fold_left]. apply IHk. now apply keyCallback_mass_range. }
  split; [ apply H | ].
  apply H. unfold keyCallback. cbv zeta.
  cbn [centralMass set_vertices set_centralMass set_cameraPos].
  cbn [widen narrow dadd dsub dmul RealDouble.double]. RealFacts.real_ops. RealFacts.real_lits. lra.
Qed.

Lemma run_keeps_mass_in_range_witness :
  (1 / 10 <= centralMass (run (set_centralMass RealModel.zero_storage 1%R)
                              [([KEY_EQUAL; KEY_G], 0%R)]) <= 5)%R.
Proof.
  refine (proj1 (run_keeps_mass_in_range (set_centralMass RealModel.zero_storage 1%R)
                   [([KEY_EQUAL; KEY_G], 0%R)]) _).
  cbn. lra.
Defined.

(** X10.  On binary32 the two clamps are 25 key presses apart: from 0.1f
    the 25th [increaseMass] is the first to give 5.0f, and from 5.0f the
    25th [decreaseMass] is the first to give 0.1f. *)
Theorem mass_range_is_25_presses (this : MathAnimation F32.f32) :
  (centralMass this = flit 0.1 ->
   centralMass (Nat.iter 25 increaseMass this) = flit 5.0 /\
   forall n, (n < 25)%nat ->
     fltb (centralMass (Nat.iter n increaseMass this)) (flit 5.0) = true) /\
  (centralMass this = flit 5.0 ->
   centralMass (Nat.iter 25 decreaseMass this) = flit 0.1 /\
   forall n, (n < 25)%nat ->
     fltb (flit 0.1) (centralMass (Nat.iter n decreaseMass this)) = true).
Proof.
  split; intros H0.
  - assert (Hinc : forall n, centralMass (Nat.iter n increaseMass this) =
                    centralMass (Nat.iter n increaseMass (F32.with_mass (flit 0.1)))).
    { intros n. apply iter_increaseMass_centralMass. exact H0. }
    split.
    + rewrite Hinc. vm_compute. reflexivity.
    + intros n Hn. rewrite Hinc.
      assert (Hall : forallb (fun k =>
                 fltb (centralMass (Nat.iter k increaseMass (F32.with_mass (flit 0.1))))
                      (flit 5.0)) (seq 0 25) = true) by (vm_compute; reflexivity).
      rewrite forallb_forall in Hall. apply Hall. apply in_seq. lia.
  - assert (Hdec : forall n, centralMass (Nat.iter n decreaseMass this) =
                    centralMass (Nat.iter n decreaseMass (F32.with_mass (flit 5.0)))).
    { intros n. apply iter_decreaseMass_centralMass. exact H0. }
    split.
    + rewrite Hdec. vm_compute. reflexivity.
    + intros n Hn. rewrite Hdec.
      assert (Hall : forallb (fun k =>
                 fltb (flit 0.1)
                      (centralMass (Nat.iter k decreaseMass (F32.with_mass (flit 5.0)))))
                 (seq 0 25) = true) by (vm_compute; reflexivity).
      rewrite forallb_forall in Hall. apply Hall. apply in_seq. lia.
Qed.

Lemma mass_range_is_25_presses_witness :
  centralMass (Nat.iter 25 increaseMass (F32.with_mass (flit 0.1))) = flit 5.0 /\
  centralMass (Nat.iter 25 decreaseMass (F32.with_mass (flit 5.0))) = flit 0.1.
Proof.
  split.
  - refine (proj1 (proj1 (mass_range_is_25_presses (F32.with_mass (flit 0.1))) _)).
    reflexivity.
  - refine (proj1 (proj2 (mass_range_is_25_presses (F32.with_mass (flit 5.0))) _)).
    reflexivity.
Defined.

(** ** Numerical facts in the real-number model *)

Module NumericFacts.
Import RealModel RealFacts.
Local Open Scope R_scope.

(** X11.  The three square-grid modes truncate [base * sqrt(multiplier)]:
    the sine surface has side 80, 113, 160 or 226, the fractal 200, 282,
    400 or 565, the wave surface 100, 141, 200 or 282, for the multipliers
    1, 2, 4, 8, and each emits side * side vertices. *)
Theorem square_grid_sides (this : MathAnimation R) (v : list R) (t : R) :
  let mult := getQualityMultiplier (qualityLevel this) in
  let side (s1 s2 s4 s8 : Z) : Z :=
    (if mult =? 1 then s1 else if mult =? 2 then s2 else if mult =? 4 then s4 else s8)%Z in
  Z.of_nat (length (generateSineWaveSurface this v t))
    = (6 * (side 80 113 160 226 * side 80 113 160 226))%Z /\
  Z.of_nat (length (generateFractalZoom this v t))
    = (6 * (side 200 282 400 565 * side 200 282 400 565))%Z /\
  Z.of_nat (length (generateWaveInterference this v t))
    = (6 * (side 100 141 200 282 * side 100 141 200 282))%Z.
Proof.
  cbv zeta.
  rewrite generateSineWaveSurface_length, generateFractalZoom_length,
    generateWaveInterference_length, !of_nat_count2.
  pose proof (sqrt_side_pos 80 this (or_introl eq_refl)) as H80.
  pose proof (sqrt_side_pos 200 this (or_intror (or_introl eq_refl))) as H200.
  pose proof (sqrt_side_pos 100 this (or_intror (or_intror eq_refl))) as H100.
  rewrite !Z.max_r by lia.
  rewrite sqrt_side_80, sqrt_side_200, sqrt_side_100. cbv zeta.
  repeat split; reflexivity.
Qed.

Lemma pow_pos (x y : R) : 0 < x -> 0 < pow x y.
Proof.
  intros Hx. unfold pow. destruct (Rlt_dec 0 x) as [_|H]; [ | contradiction ].
  unfold Rpower. apply exp_pos.
Qed.

Lemma pow_nonneg (x y : R) : 0 <= x -> 0 < y -> 0 <= pow x y.
Proof.
  intros Hx Hy. unfold pow. destruct (Rlt_dec 0 x) as [H|H].
  - unfold Rpower. left. apply exp_pos.
  - destruct (Rlt_dec 0 y); [ lra | contradiction ].
Qed.

(** X12.  The superformula never reaches its singularities.  For every
    time: 2 <= m <= 10, 0.3 <= n1 <= 1.5, 1 <= n2 <= 3 and 1 <= n3 <= 3, so
    the exponent -1/n1 has a non-zero divisor; and for every angle the base
    |cos_m|^n2 + |sin_m|^n3 is positive, and so is the radius. *)
Theorem superformula_is_regular (t a : R) :
  2 <= superformula_m t <= 10 /\
  3 / 10 <= superformula_n1 t <= 15 / 10 /\
  1 <= superformula_n2 t <= 3 /\
  1 <= superformula_n3 t <= 3 /\
  0 < fadd (fpow (ffabs (fdiv (fcos a) (of_int 1))) (superformula_n2 t))
           (fpow (ffabs (fdiv (fsin a) (of_int 1))) (superformula_n3 t)) /\
  0 < fpow (fadd (fpow (ffabs (fdiv (fcos a) (of_int 1))) (superformula_n2 t))
                 (fpow (ffabs (fdiv (fsin a) (of_int 1))) (superformula_n3 t)))
           (fdiv (flit (-1.0)) (superformula_n1 t)).
Proof.
  assert (Hm : 2 <= superformula_m t <= 10).
  { unfold superformula_m. real_ops. real_lits.
    pose proof (SIN_bound (t * (4 * / 10))). lra. }
  assert (Hn1 : 3 / 10 <= superformula_n1 t <= 15 / 10).
  { unfold superformula_n1. real_ops. real_lits.
    pose proof (SIN_bound (t * (6 * / 10))) as Hs.
    pose proof (Rabs_pos (sin (t * (6 * / 10)))).
    assert (Rabs (sin (t * (6 * / 10))) <= 1) by (apply Rabs_le; lra). lra. }
  assert (Hn2 : 1 <= superformula_n2 t <= 3).
  { unfold superformula_n2. real_ops. real_lits.
    pose proof (COS_bound (t * (5 * / 10))) as Hs.
    pose proof (Rabs_pos (cos (t * (5 * / 10)))).
    assert (Rabs (cos (t * (5 * / 10))) <= 1) by (apply Rabs_le; lra). lra. }
  assert (Hn3 : 1 <= superformula_n3 t <= 3).
  { unfold superformula_n3. real_ops. real_lits.
    pose proof (SIN_bound (t * (8 * / 10))) as Hs.
    pose proof (Rabs_pos (sin (t * (8 * / 10)))).
    assert (Rabs (sin (t * (8 * / 10))) <= 1) by (apply Rabs_le; lra). lra. }
  assert (Hbase : 0 < pow (Rabs (cos a / 1)) (superformula_n2 t)
                      + pow (Rabs (sin a / 1)) (superformula_n3 t)).
  { replace (cos a / 1) with (cos a) by lra.
    replace (sin a / 1) with (sin a) by lra.
    pose proof (Rabs_pos (cos a)) as Hc. pose proof (Rabs_pos (sin a)) as Hs.
    destruct Hc as [Hc | Hc].
    - pose proof (pow_pos _ (superformula_n2 t) Hc).
      pose proof (pow_nonneg (Rabs (sin a)) (superformula_n3 t) Hs). lra.
    - assert (Hs' : 0 < Rabs (sin a)).
      { destruct Hs as [Hs | Hs]; [ exact Hs | exfalso ].
        symmetry in Hc, Hs.
        assert (cos a = 0) by (destruct (Req_dec (cos a) 0) as [E|E];
                               [ exact E | apply Rabs_no_R0 in E; contradiction ]).
        assert (sin a = 0) by (destruct (Req_dec (sin a) 0) as [E|E];
                               [ exact E | apply Rabs_no_R0 in E; contradiction ]).
        pose proof (sin2_cos2 a) as H1. unfold Rsqr in H1. nra. }
      pose proof (pow_pos _ (superformula_n3 t) Hs').
      pose proof (pow_nonneg (Rabs (cos a)) (superformula_n2 t) (Rabs_pos _)). lra. }
  repeat (split; [ assumption | ]).
  real_ops. apply pow_pos. exact Hbase.
Qed.

Lemma tesseract_pts4_units (v : array4) :
  In v (tesseract_pts4 (F := R)) ->
  (at0 v = 1 \/ at0 v = -1) /\ (at1 v = 1 \/ at1 v = -1) /\
  (at2 v = 1 \/ at2 v = -1) /\ (at3 v = 1 \/ at3 v = -1).
Proof.
  rewrite tesseract_pts4_eq. real_ops.
  replace (Q2R 1.0) with 1 by (real_lits; lra).
  replace (Q2R (-1.0)) with (-1) by (real_lits; lra).
  cbn [In]. intros H.
  repeat (destruct H as [<- | H]; [ cbn; tauto | ]). contradiction.
Qed.

(** X13.  The x-w rotation of the tesseract is a rotation: for every time
    each of the sixteen rotated points keeps x^2 + w^2 = 2 and its y and z
    coordinates stay +1 or -1. *)
Theorem tesseract_rotation_preserves_norm (t : R) :
  Forall (fun v : array4 =>
            at0 v * at0 v + at3 v * at3 v = 2 /\
            (at1 v = 1 \/ at1 v = -1) /\ (at2 v = 1 \/ at2 v = -1))
         (tesseract_rotate t tesseract_pts4).
Proof.
  apply Forall_forall. intros v Hv.
  unfold tesseract_rotate in Hv. cbv zeta in Hv.
  apply in_map_iff in Hv. destruct Hv as [u [<- Hu]].
  apply tesseract_pts4_units in Hu. destruct Hu as (H0 & H1 & H2 & H3).
  cbn [at0 at1 at2 at3]. real_ops.
  pose proof (sin2_cos2 (t * Q2R 0.3)) as Hsc. unfold Rsqr in Hsc.
  repeat split; try assumption.
  destruct H0 as [-> | ->], H3 as [-> | ->]; nra.
Qed.

End NumericFacts.

(** ** The escape-time loop *)

Section EscapeTime.
Context {F : Type} {FA : FloatArith F} {FM : FloatMath F}.

Lemma escape_loop_unfold (fuel : nat) (maxI : Z) (x0 y0 x y : F) (iter : Z) :
  escape_loop (S fuel) maxI x0 y0 x y iter =
  if fltb (fadd (fmul x x) (fmul y y)) (flit 4.0) && (iter <? maxI)
  then escape_loop fuel maxI x0 y0 (fadd (fsub (fmul x x) (fmul y y)) x0)
         (fadd (fmul (fmul (of_int 2) x) y) y0) (iter + 1)
  else iter.
Proof. reflexivity. Qed.

(** X14.  The escape-time loop of the fractal stops by its own condition
    within 100 rounds, for every float semantics (NaN included): its count
    lies in 0..100, running it with any larger budget gives the same
    count, and at least one round is made whenever 0 < 4 holds for the
    comparison. *)
Theorem escape_time_is_bounded (x0 y0 : F) (fuel : nat) :
  0 <= escape_time x0 y0 <= 100 /\
  ((100 <= fuel)%nat ->
   escape_loop fuel 100 x0 y0 (of_int 0) (of_int 0) 0 = escape_time x0 y0) /\
  (fltb (fadd (fmul (of_int 0) (of_int 0)) (fmul (of_int 0) (of_int 0))) (flit 4.0) = true ->
   1 <= escape_time x0 y0).
Proof.
  split; [ apply escape_time_bounds | split ].
  - intros Hf. unfold escape_time. cbv zeta.
    apply escape_loop_fuel; lia.
  - intros H0. unfold escape_time. cbv zeta.
    change (Z.to_nat (100 - 0)) with (S 99). rewrite escape_loop_unfold.
    rewrite H0. cbn [andb Z.ltb Z.compare].
    apply escape_loop_bounds. lia.
Qed.

End EscapeTime.

Lemma escape_time_is_bounded_witness :
  escape_loop 150 100 (1 / 4)%R 0%R (of_int 0) (of_int 0) 0 = escape_time (1 / 4)%R 0%R /\
  1 <= escape_time (1 / 4)%R 0%R.
Proof.
  destruct (escape_time_is_bounded (1 / 4)%R 0%R 150) as (_ & Hfuel & Hone).
  split.
  - apply Hfuel. lia.
  - apply Hone. apply RealFacts.ltb_true.
    RealFacts.real_ops. RealFacts.real_lits. lra.
Defined.

Module EscapeFacts.
Import RealModel RealFacts AnimationFacts.
Local Open Scope R_scope.

Lemma escape_loop_inside (x0 y0 : R) (fuel : nat) (x y : R) (iter : Z) :
  x0 * x0 + y0 * y0 <= 1 / 16 ->
  x * x + y * y <= 1 / 4 ->
  (0 <= iter <= 100)%Z -> fuel = Z.to_nat (100 - iter) ->
  escape_loop fuel 100 x0 y0 x y iter = 100%Z.
Proof.
  intros Hc. revert x y iter.
  induction fuel as [|fuel IH]; intros x y iter Hz Hi Hf.
  - cbn [escape_loop]. lia.
  - rewrite (escape_loop_go fuel 100 x0 y0 x y (x * x - y * y + x0) (2 * x * y + y0))
      by (try reflexivity; try lra; lia).
    apply IH; [ | lia | lia ].
    pose proof (Rle_0_sqr (x * x - y * y - x0)) as H1.
    pose proof (Rle_0_sqr (2 * x * y - y0)) as H2.
    unfold Rsqr in H1, H2.
    assert (Hsq : (x * x - y * y) * (x * x - y * y) + (2 * x * y) * (2 * x * y)
                  = (x * x + y * y) * (x * x + y * y)) by ring.
    assert (Hq : (x * x + y * y) * (x * x + y * y) <= 1 / 16).
    { pose proof (Rle_0_sqr x). pose proof (Rle_0_sqr y). unfold Rsqr in *. nra. }
    nra.
Qed.

(** X15.  In the real-number model the count of the escape-time loop is 1
    exactly for the points at distance 2 or more from the origin, and it is
    the full 100 for every point within distance 1/4 of the origin (such
    points never escape), so their height channel is exactly 1. *)
Theorem escape_time_near_and_far (x0 y0 : R) :
  (escape_time x0 y0 = 1%Z <-> 4 <= x0 * x0 + y0 * y0) /\
  (x0 * x0 + y0 * y0 <= 1 / 16 -> escape_time x0 y0 = 100%Z).
Proof.
  split; [ split | ].
  - intros H1. destruct (Rle_dec 4 (x0 * x0 + y0 * y0)) as [Hge|Hlt]; [ exact Hge | ].
    exfalso. revert H1. unfold escape_time. cbv zeta.
    change (Z.to_nat (100 - 0)) with 100%nat. real_ops.
    rewrite (escape_loop_go _ _ _ _ _ _ x0 y0) by (try lra; lia).
    rewrite (escape_loop_go _ _ _ _ _ _ (x0 * x0 - y0 * y0 + x0) (2 * x0 * y0 + y0))
      by (try lra; lia).
    intros H1.
    match type of H1 with
    | escape_loop ?f ?m ?a ?b ?c ?d ?i = _ =>
        pose proof (escape_loop_bounds f m a b c d i)
    end.
    lia.
  - intros Hge. unfold escape_time. cbv zeta.
    change (Z.to_nat (100 - 0)) with 100%nat. real_ops.
    rewrite (escape_loop_go _ _ _ _ _ _ x0 y0) by (try lra; lia).
    rewrite escape_loop_stop by exact Hge. reflexivity.
  - intros Hin. unfold escape_time. cbv zeta. real_ops.
    apply escape_loop_inside; [ exact Hin | lra | lia | reflexivity ].
Qed.

Lemma escape_time_near_and_far_witness :
  escape_time (1 / 8) (1 / 8) = 100%Z /\ escape_time 2 0 = 1%Z.
Proof.
  split.
  - refine (proj2 (escape_time_near_and_far (1 / 8) (1 / 8)) _). lra.
  - refine (proj2 (proj1 (escape_time_near_and_far 2 0)) _). lra.
Defined.

End EscapeFacts.

(** ** Properties of every vertex of a stream *)

Section AllVertices.
Context {F : Type} (P : F -> F -> F -> F -> F -> F -> Prop).

Lemma all_vertices_app (l1 l2 : list F) :
  all_vertices P l1 -> all_vertices P l2 -> all_vertices P (l1 ++ l2).
Proof.
  intros H1 H2. induction H1 as [|x y z r g b l Hp Hl IH]; [ exact H2 | ].
  cbn [app]. now constructor.
Qed.

Lemma all_vertices_one (x y z r g b : F) :
  P x y z r g b -> all_vertices P [x; y; z; r; g; b].
Proof. intros H. constructor; [ exact H | constructor ]. Qed.

Lemma all_vertices_flat_map {A : Type} (f : A -> list F) (l : list A) :
  (forall a, In a l -> all_vertices P (f a)) -> all_vertices P (flat_map f l).
Proof.
  intros H. induction l as [|a l IH]; cbn [flat_map]; [ constructor | ].
  apply all_vertices_app.
  - apply H. now left.
  - apply IH. intros b Hb. apply H. now right.
Qed.

Lemma for_each_all_vertices {A : Type} (body : A -> list F -> list F)
      (l : list A) (v : list F) :
  appends body ->
  all_vertices P v ->
  (forall a, In a l -> all_vertices P (body a [])) ->
  all_vertices P (for_each l body v).
Proof.
  intros Hb Hv H. rewrite for_each_appends by exact Hb.
  apply all_vertices_app; [ exact Hv | now apply all_vertices_flat_map ].
Qed.

End AllVertices.

Module VertexFacts.
Import RealModel RealFacts.
Local Open Scope R_scope.

(** Names every sine and cosine of the goal and records its bounds. *)
Ltac trig_bounds :=
  repeat match goal with
         | |- context [sin ?a] =>
             let s := fresh "s" in
             pose proof (SIN_bound a); set (s := sin a) in *; clearbody s
         | |- context [cos ?a] =>
             let c := fresh "c" in
             pose proof (COS_bound a); set (c := cos a) in *; clearbody c
         end.

(** X16.  Every vertex the gyroid emits lies in the cube [-2, 2)^3 of its
    grid and has its first two colour channels c and 1 - c strictly
    between 0 and 1: the threshold test that admits a cell is also what
    keeps its colour in range. *)
Theorem gyroid_vertices_in_range (this : MathAnimation R) (v : list R) (t : R) :
  all_vertices (fun x y z r g b =>
                  -2 <= x < 2 /\ -2 <= y < 2 /\ -2 <= z < 2 /\
                  0 < r < 1 /\ 0 < g < 1 /\ g = 1 - r /\ 0 <= b <= 1)
               (generateGyroid this v t).
Proof.
  rewrite generateGyroid_cells.
  apply all_vertices_flat_map. intros [[i j] k] Hin.
  assert (HG : (0 < gyroid_finalGrid this)%Z).
  { destruct (gyroid_finalGrid_cases this) as [E|[E|E]]; rewrite E; lia. }
  assert (Hijk : (0 <= i < gyroid_finalGrid this)%Z /\
                 (0 <= j < gyroid_finalGrid this)%Z /\
                 (0 <= k < gyroid_finalGrid this)%Z).
  { unfold grid_cells in Hin.
    apply in_flat_map in Hin. destruct Hin as [i' [Hi Hin]].
    apply in_flat_map in Hin. destruct Hin as [j' [Hj Hin]].
    apply in_map_iff in Hin. destruct Hin as [k' [E Hk]].
    inversion E; subst.
    apply range_In_inv in Hi, Hj, Hk. tauto. }
  destruct Hijk as (Hi & Hj & Hk).
  assert (Hcoord : forall n : Z, (0 <= n < gyroid_finalGrid this)%Z ->
            -2 <= (IZR n / IZR (gyroid_finalGrid this) - Q2R 0.5) * Q2R 4.0 < 2).
  { intros n [Hn0 Hn1]. rewrite Q2R_half, Q2R_four.
    apply IZR_le in Hn0. apply IZR_lt in Hn1. apply IZR_lt in HG.
    assert (0 <= IZR n / IZR (gyroid_finalGrid this) < 1).
    { split.
      - apply Rmult_le_pos; [ lra | left; now apply Rinv_0_lt_compat ].
      - apply Rmult_lt_reg_r with (IZR (gyroid_finalGrid this)); [ lra | ].
        unfold Rdiv. rewrite Rmult_assoc, Rinv_l by lra. lra. }
    lra. }
  pose proof (Hcoord i Hi) as Hx. pose proof (Hcoord j Hj) as Hy.
  pose proof (Hcoord k Hk) as Hz. clear Hcoord.
  unfold gyroid_voxel. cbv zeta. real_ops.
  unfold ltb. destruct (Rlt_dec _ _) as [Hlt | _]; [ | constructor ].
  cbv beta iota zeta delta [push_back app].
  apply all_vertices_one.
  apply Rabs_def2 in Hlt.
  replace (Q2R 0.1) with (1 / 10) by (real_lits; lra).
  replace (Q2R 1.0) with 1 by (real_lits; lra).
  rewrite Q2R_twentieth in *.
  assert (Hdiv : forall u : R, u / (1 / 10) = u * 10) by (intros u; field).
  rewrite !Hdiv.
  pose proof (SIN_bound t).
  replace (Q2R 0.5 + Q2R 0.5 * sin t) with (1 / 2 + 1 / 2 * sin t)
    by (rewrite Q2R_half; reflexivity).
  repeat split; lra.
Qed.

(** *** Colour channels *)

Ltac unit_goal :=
  cbv beta iota zeta delta [push_back app]; apply all_vertices_one;
  real_ops; real_lits; trig_bounds; repeat split; lra.

Ltac enter_loop :=
  cbv beta; apply for_each_all_vertices; [ appends_tac | apply all_vertices_nil | intros ? ? ].

Lemma spiral_colours (this : MathAnimation R) (v : list R) (t : R) :
  all_vertices (fun _ _ _ r g b => 0 <= r <= 1 /\ 0 <= g <= 1 /\ 0 <= b <= 1)
               (generateParametricSpiral this v t).
Proof. unfold generateParametricSpiral. cbv zeta. unfold clear. enter_loop. unit_goal. Qed.

Lemma lissajous_colours (this : MathAnimation R) (v : list R) (t : R) :
  all_vertices (fun _ _ _ r g b => 0 <= r <= 1 /\ 0 <= g <= 1 /\ 0 <= b <= 1)
               (generateLissajous this v t).
Proof. unfold generateLissajous. cbv zeta. unfold clear. enter_loop. unit_goal. Qed.

Lemma torus_colours (this : MathAnimation R) (v : list R) (t : R) :
  all_vertices (fun _ _ _ r g b => 0 <= r <= 1 /\ 0 <= g <= 1 /\ 0 <= b <= 1)
               (generateTorus this v t).
Proof.
  unfold generateTorus. cbv zeta. unfold clear. enter_loop. enter_loop. unit_goal.
Qed.

Lemma hypotrochoid_colours (this : MathAnimation R) (v : list R) (t : R) :
  all_vertices (fun _ _ _ r g b => 0 <= r <= 1 /\ 0 <= g <= 1 /\ 0 <= b <= 1)
               (generateHypotrochoid this v t).
Proof. unfold generateHypotrochoid. cbv zeta. unfold clear. enter_loop. unit_goal. Qed.

Lemma klein_colours (this : MathAnimation R) (v : list R) (t : R) :
  all_vertices (fun _ _ _ r g b => 0 <= r <= 1 /\ 0 <= g <= 1 /\ 0 <= b <= 1)
               (generateKleinBottle this v t).
Proof.
  unfold generateKleinBottle. cbv zeta. unfold clear. enter_loop. enter_loop. unit_goal.
Qed.

Lemma phyllotaxis_colours (this : MathAnimation R) (v : list R) (t : R) :
  all_vertices (fun _ _ _ r g b => 0 <= r <= 1 /\ 0 <= g <= 1 /\ 0 <= b <= 1)
               (generatePhyllotaxis this v t).
Proof. unfold generatePhyllotaxis. cbv zeta. unfold clear. enter_loop. unit_goal. Qed.

Lemma wave_colours (this : MathAnimation R) (v : list R) (t : R) :
  all_vertices (fun _ _ _ r g b => 0 <= r <= 1 /\ 0 <= g <= 1 /\ 0 <= b <= 1)
               (generateWaveInterference this v t).
Proof.
  unfold generateWaveInterference. cbv zeta. unfold clear. enter_loop. enter_loop.
  unit_goal.
Qed.

Lemma index_fraction (i N : Z) : In i (range N) -> 0 <= IZR i / IZR N < 1.
Proof.
  intros Hin. apply range_In_inv in Hin. destruct Hin as [H0 H1].
  assert (HN : 0 < IZR N) by (apply IZR_lt; lia).
  apply IZR_le in H0. apply IZR_lt in H1. split.
  - apply Rmult_le_pos; [ exact H0 | left; now apply Rinv_0_lt_compat ].
  - apply Rmult_lt_reg_r with (IZR N); [ exact HN | ].
    unfold Rdiv. rewrite Rmult_assoc, Rinv_l by lra. lra.
Qed.

Lemma helix_colours (this : MathAnimation R) (v : list R) (t : R) :
  all_vertices (fun _ _ _ r g b => 0 <= r <= 1 /\ 0 <= g <= 1 /\ 0 <= b <= 1)
               (generate3DHelix this v t).
Proof.
  unfold generate3DHelix. cbv zeta. unfold clear. enter_loop.
  match goal with H : In ?i (range ?N) |- _ => pose proof (index_fraction i N H) as Hf end.
  cbv beta iota zeta delta [push_back app]. apply all_vertices_one.
  real_ops.
  match type of Hf with _ <= ?f < _ => set (fr := f) in * end. clearbody fr.
  real_lits. trig_bounds. repeat split; lra.
Qed.

Lemma Rmin_unit (x : R) : 0 <= x -> 0 <= Rmin 1 x <= 1.
Proof. intros Hx. unfold Rmin. destruct (Rle_dec 1 x); lra. Qed.

Lemma Rabs_unit (x : R) : -1 <= x <= 1 -> 0 <= Rabs x <= 1.
Proof. intros Hx. split; [ apply Rabs_pos | apply Rabs_le; lra ]. Qed.

Lemma lorenz_loop_colours (σ ρ β dt t : R) (l : list Z) (v : list R) (p : R * R * R) :
  all_vertices (fun _ _ _ r g b => 0 <= r <= 1 /\ 0 <= g <= 1 /\ 0 <= b <= 1) v ->
  all_vertices (fun _ _ _ r g b => 0 <= r <= 1 /\ 0 <= g <= 1 /\ 0 <= b <= 1)
               (fst (for_each l (lorenz_step σ ρ β dt t) (v, p))).
Proof.
  revert v p. induction l as [|i l IH]; intros v [[x y] z] Hv; [ exact Hv | ].
  rewrite for_each_cons. unfold lorenz_step at 2. cbv beta iota zeta.
  apply IH. unfold push_back. rewrite <- !app_assoc. cbn [app].
  apply all_vertices_app; [ exact Hv | ].
  apply all_vertices_one. real_ops.
  match goal with
  | |- context [sqrt ?e] =>
      pose proof (sqrt_pos e) as Hs; set (speed := sqrt e) in *; clearbody speed
  end.
  replace (Q2R 1.0) with 1 by (real_lits; lra).
  replace (Q2R 0.05) with (1 / 20) by (real_lits; lra).
  replace (Q2R 0.2) with (2 / 10) by (real_lits; lra).
  replace (Q2R 0.8) with (8 / 10) by (real_lits; lra).
  pose proof (Rmin_unit (speed * (1 / 20))) as Hm.
  pose proof (Rabs_unit (sin (speed + t)) (SIN_bound _)) as Ha.
  assert (0 <= speed * (1 / 20)) by lra.
  repeat split; lra.
Qed.

Lemma lorenz_colours (this : MathAnimation R) (v : list R) (t : R) :
  all_vertices (fun _ _ _ r g b => 0 <= r <= 1 /\ 0 <= g <= 1 /\ 0 <= b <= 1)
               (generateLorenzAttractor this v t).
Proof.
  unfold generateLorenzAttractor. cbv zeta. unfold clear.
  apply lorenz_loop_colours. constructor.
Qed.

Lemma harmonic_colours (this : MathAnimation R) (v : list R) (t : R) :
  all_vertices (fun _ _ _ r g b => 0 <= r <= 1 /\ 0 <= g <= 1 /\ 0 <= b <= 1)
               (generateSphericalHarmonic this v t).
Proof.
  unfold generateSphericalHarmonic. cbv zeta. unfold clear. enter_loop. enter_loop.
  cbv beta iota zeta delta [push_back app]. apply all_vertices_one.
  unfold sph_legendre. real_ops.
  repeat match goal with
  | |- context [Rabs (sin ?a)] =>
      let r := fresh "r" in
      pose proof (Rabs_unit (sin a) (SIN_bound a));
      set (r := Rabs (sin a)) in *; clearbody r
  end.
  match goal with
  | |- context [sin ?a * cos ?b] =>
      pose proof (SIN_bound a) as Hs; pose proof (COS_bound b) as Hc;
      assert (HY : -1 <= sin a * cos b <= 1) by (split; nra);
      set (Y := sin a * cos b) in *; clearbody Y
  end.
  real_lits. repeat split; lra.
Qed.

Lemma fractal_colours (this : MathAnimation R) (v : list R) (t : R) :
  all_vertices (fun _ _ _ r g b => 0 <= r <= 1 /\ 0 <= g <= 1 /\ 0 <= b <= 1)
               (generateFractalZoom this v t).
Proof.
  unfold generateFractalZoom. cbv zeta. unfold clear. enter_loop. enter_loop.
  cbv beta iota zeta delta [push_back app]. apply all_vertices_one.
  real_ops.
  match goal with
  | |- context [IZR (escape_time ?a ?b)] =>
      pose proof (escape_time_bounds a b) as [Hlo Hhi];
      apply IZR_le in Hlo; apply IZR_le in Hhi;
      set (n := IZR (escape_time a b)) in *; clearbody n
  end.
  real_lits. repeat split; lra.
Qed.

Lemma gyroid_colours (this : MathAnimation R) (v : list R) (t : R) :
  all_vertices (fun _ _ _ r g b => 0 <= r <= 1 /\ 0 <= g <= 1 /\ 0 <= b <= 1)
               (generateGyroid this v t).
Proof.
  rewrite generateGyroid_cells.
  apply all_vertices_flat_map. intros [[i j] k] _.
  unfold gyroid_voxel. cbv zeta. real_ops.
  unfold ltb. destruct (Rlt_dec _ _) as [Hlt | _]; [ | constructor ].
  cbv beta iota zeta delta [push_back app].
  apply all_vertices_one.
  apply Rabs_def2 in Hlt.
  replace (Q2R 0.1) with (1 / 10) by (real_lits; lra).
  replace (Q2R 1.0) with 1 by (real_lits; lra).
  rewrite Q2R_twentieth in *.
  assert (Hdiv : forall u : R, u / (1 / 10) = u * 10) by (intros u; field).
  rewrite !Hdiv.
  pose proof (SIN_bound t).
  replace (Q2R 0.5 + Q2R 0.5 * sin t) with (1 / 2 + 1 / 2 * sin t)
    by (rewrite Q2R_half; reflexivity).
  repeat split; lra.
Qed.

(** Walks through the three loop nests of the curvature generator, leaving
    one goal per kind of vertex: surface, vertical line, horizontal line. *)
Ltac enter_gravitational :=
  unfold generateGravitationalSpacetime; cbv zeta; unfold clear;
  apply for_each_all_vertices;
  [ intros ? ?;
    rewrite (for_each_appends _ _ (for_each _ _ _)) by appends_tac;
    rewrite (for_each_appends _ _ (for_each _ _ [])) by appends_tac;
    match goal with
    | |- for_each ?l ?b ?w ++ _ = _ =>
        rewrite (for_each_appends b l w) by appends_tac;
        rewrite (for_each_appends b l []) by appends_tac
    end;
    rewrite <- !app_assoc; reflexivity
  | enter_loop; enter_loop
  | intros ? ?; cbv beta; apply for_each_all_vertices;
    [ appends_tac | enter_loop | intros ? ? ] ];
  cbv beta iota zeta delta [insert_end app].

Lemma gravitational_colours (this : MathAnimation R) (v : list R) (t : R) :
  all_vertices (fun _ _ _ r g b => 0 <= r <= 1 /\ 0 <= g <= 1 /\ 0 <= b <= 1)
               (generateGravitationalSpacetime this v t).
Proof.
  enter_gravitational; apply all_vertices_one; real_ops; real_lits;
    repeat split; lra.
Qed.








(** X17.  In thirteen of the sixteen modes (all but the sine surface 3,
    the superformula 6 and the tesseract 13) every vertex of every frame
    has its three colour channels within [0, 1], at every time, quality
    level and central mass. *)
Theorem colours_within_unit_range (mode : Z) (t : R) (q : Z) (m : R)
        (this : MathAnimation R) :
  In mode [0; 1; 2; 4; 5; 7; 8; 9; 10; 11; 12; 14; 15]%Z ->
  all_vertices (fun _ _ _ r g b => 0 <= r <= 1 /\ 0 <= g <= 1 /\ 0 <= b <= 1)
               (generate mode t q m this).
Proof.
  intros Hmode. cbn [In] in Hmode.
  repeat (destruct Hmode as [<- | Hmode]; [ enter_generator | ]).
  - apply spiral_colours.
  - apply lissajous_colours.
  - apply helix_colours.
  - apply torus_colours.
  - apply hypotrochoid_colours.
  - apply lorenz_colours.
  - apply klein_colours.
  - apply gyroid_colours.
  - apply harmonic_colours.
  - apply fractal_colours.
  - apply phyllotaxis_colours.
  - apply wave_colours.
  - apply gravitational_colours.
  - contradiction.
Qed.

Lemma colours_within_unit_range_witness :
  all_vertices (fun _ _ _ r g b => 0 <= r <= 1 /\ 0 <= g <= 1 /\ 0 <= b <= 1)
               (generate 7 1 2 1 zero_storage).
Proof.
  refine (colours_within_unit_range 7 1 2 1 zero_storage _).
  cbn [In]. do 5 right. left. reflexivity.
Defined.

Lemma all_vertices_head (P : R -> R -> R -> R -> R -> R -> Prop) (l : list R) :
  all_vertices P l ->
  l = [] \/ P (nth 0 l 0) (nth 1 l 0) (nth 2 l 0) (nth 3 l 0) (nth 4 l 0) (nth 5 l 0).
Proof. intros [ | x y z r g b l' H _ ]; [ left; reflexivity | right; exact H ]. Qed.

(** The first corner (-1, -1, -1, -1) after the rotation. *)
Lemma tesseract_red (this : MathAnimation R) (v : list R) (t : R) :
  nth 3 (generateTesseract4D this v t) 0 =
  1 / 2 + 1 / 2 * (sin (t * (3 / 10)) * -1 + cos (t * (3 / 10)) * -1).
Proof.
  unfold generateTesseract4D. cbv zeta. unfold clear.
  rewrite tesseract_pts4_eq. unfold tesseract_rotate. cbv zeta.
  cbn [map]. rewrite for_each_appends by appends_tac.
  cbn [flat_map]. cbv beta iota zeta delta [push_back app nth at0 at3].
  real_ops. real_lits. unfold Rdiv.
  replace (t * (3 * / 10)) with (t * (3 * / 10) + 0) by ring.
  replace (t * (3 * / 10) + 0) with (t * (3 * / 10)) by ring.
  lra.
Qed.

(** X18.  The colour channels of modes 3 and 13 are not confined to
    [0, 1]: whatever the quality level and mass, there is a time at which
    the sine surface has a vertex with green -0.4, and a time at which a
    tesseract vertex has red (1 - sqrt 2) / 2 < 0. *)
Theorem colours_leave_unit_range (q : Z) (m : R) (this : MathAnimation R) :
  (exists t : R,
      nth 4 (generate 3 t q m this) 0 = - (4 / 10) /\
      ~ all_vertices (fun _ _ _ r g b => 0 <= r <= 1 /\ 0 <= g <= 1 /\ 0 <= b <= 1)
                     (generate 3 t q m this)) /\
  (exists t : R,
      nth 3 (generate 13 t q m this) 0 = (1 - sqrt 2) / 2 /\
      ~ all_vertices (fun _ _ _ r g b => 0 <= r <= 1 /\ 0 <= g <= 1 /\ 0 <= b <= 1)
                     (generate 13 t q m this)).
Proof.
  split.
  - exists (3 * (PI / 2) - sqrt (9 / 2) * (5 / 10)).
    enter_generator.
    match goal with |- ?A /\ _ => assert (Hg : A) end.
    { rewrite AnimationFacts.surface_green.
      replace (sqrt (9 / 2) * (5 / 10) + (3 * (PI / 2) - sqrt (9 / 2) * (5 / 10)))
        with (3 * (PI / 2)) by ring.
      rewrite sin_3PI2. lra. }
    split; [ exact Hg | ].
    intros H. apply all_vertices_head in H. destruct H as [E | (_ & Hgreen & _)].
    + rewrite E in Hg. cbn [nth] in Hg. lra.
    + rewrite Hg in Hgreen. lra.
  - exists (5 * PI / 6).
    enter_generator.
    destruct TesseractFacts.sqrt2_bounds as [[Hs1 Hs2] Hs].
    match goal with |- ?A /\ _ => assert (Hr : A) end.
    { rewrite tesseract_red.
      replace (5 * PI / 6 * (3 / 10)) with (PI / 4) by field.
      rewrite sin_PI4, cos_PI4.
      assert (Hinv : 1 / sqrt 2 = sqrt 2 / 2) by (field_simplify_eq; lra).
      rewrite Hinv. lra. }
    split; [ exact Hr | ].
    intros H. apply all_vertices_head in H. destruct H as [E | (Hred & _)].
    + rewrite E in Hr. cbn [nth] in Hr. lra.
    + rewrite Hr in Hred. lra.
Qed.



End VertexFacts.
